(** * BI cube ETL: a shallow embedding of [src/etl/build_bi_cube.py]

    The program is a linear Polars pipeline: [scan_csv] -> two
    [with_columns] steps (strict casts, cleaned amount, flags) ->
    [group_by(...).agg(...)] -> parquet sink with a fallback.  Everything it
    does is a call into the dataframe engine, so the embedding gives each
    call the meaning the engine documents for it:

    - a frame is the list of its rows; a nullable cell is an [option];
    - [Expr.cast] is strict (its default): a non-null value that does not
      convert raises [InvalidOperationError] for the whole query;
    - comparison [==] propagates null; [is_not_null] never returns null;
    - [group_by] keeps null as a key value and gives no order guarantee;
    - [sum] and [mean] skip nulls, [len] counts rows, [n_unique] counts null
      as one value;
    - [scan_csv] is given no schema: the frame is what the reader delivers
      when it reads the numeric columns as integers and the others as text;
      a file it reads otherwise makes the plan raise ([scan_csv] below);
    - the lazy engine evaluates only the columns that the aggregation reads
      (projection pushdown): ["Day"], ["Card"], ["Merchant City"] and ["date"]
      are defined by the plan but never computed.

    Float32 is kept abstract (class [Float32]): every result that does not
    mention [ExactSum] holds for any carrier and any addition. *)

From stdpp Require Import base option list sets numbers strings.
From Stdlib Require Import Ascii QArith SpecFloat.

Local Open Scope string_scope.
Local Open Scope Z_scope.
Local Open Scope list_scope.

(** ** Exceptions and fallible computations *)

Inductive exn : Type :=
  | ValidationError        (* pydantic: a field does not validate *)
  | ScanError              (* the scan delivers no frame: FileNotFoundError,
                              ColumnNotFoundError or SchemaError *)
  | InvalidOperationError  (* polars: a strict cast failed *)
  | StreamingUnsupported.  (* polars: the streaming sink cannot run the plan *)

Inductive result (A : Type) : Type :=
  | Ok (a : A)
  | Err (e : exn).
Arguments Ok {A} a.
Arguments Err {A} e.

Global Instance result_bind : MBind result := λ A B k m,
  match m with
  | Ok a => k a
  | Err e => Err e
  end.

Fixpoint mapR {A B} (f : A → result B) (l : list A) : result (list B) :=
  match l with
  | [] => Ok []
  | a :: l' => b ← f a; bs ← mapR f l'; Ok (b :: bs)
  end.

(** ** String expressions *)

(** [str.replace_all(r"[\$,]", "")]: every ['$'] and every [','] is removed. *)
Definition is_currency_mark (c : ascii) : bool :=
  bool_decide (c = "$"%char) || bool_decide (c = ","%char).

Fixpoint str_replace_all (s : string) : string :=
  match s with
  | EmptyString => EmptyString
  | String c s' =>
      if is_currency_mark c then str_replace_all s'
      else String c (str_replace_all s')
  end.

(** [str.to_lowercase()].  Strings are UTF-8 byte strings; the letters
    [A]..[Z] map to [a]..[z] and every other byte is kept (no character
    outside ASCII has [y], [e] or [s] as its lower case). *)
Definition char_to_lowercase (c : ascii) : ascii :=
  let n := N_of_ascii c in
  if ((65 <=? n) && (n <=? 90))%N then ascii_of_N (n + 32) else c.

Fixpoint str_to_lowercase (s : string) : string :=
  match s with
  | EmptyString => EmptyString
  | String c s' => String (char_to_lowercase c) (str_to_lowercase s')
  end.

(** ** Integer casts *)

Inductive IntType : Type := Int8 | Int16 | Int32.

Definition int_bits (t : IntType) : Z :=
  match t with Int8 => 8 | Int16 => 16 | Int32 => 32 end.

Definition int_min (t : IntType) : Z := - 2 ^ (int_bits t - 1).
Definition int_max (t : IntType) : Z := 2 ^ (int_bits t - 1) - 1.

(** [pl.col(c).cast(t)] on an Int64 column, [strict=True]: null stays null, a
    value of the target range is kept, any other value raises. *)
Definition cast_int (t : IntType) (v : option Z) : result (option Z) :=
  match v with
  | None => Ok None
  | Some z =>
      if bool_decide (int_min t ≤ z ≤ int_max t) then Ok (Some z)
      else Err InvalidOperationError
  end.

(** [pl.col(c).cast(pl.Categorical)]: a dictionary encoding of the same
    strings; the value of every cell is unchanged. *)
Definition cast_categorical (v : option string) : option string := v.

(** ** Calendar dates *)

Record Date : Type := mkDate { date_year : Z; date_month : Z; date_day : Z }.

Definition is_leap_year (y : Z) : bool :=
  bool_decide (y mod 4 = 0) &&
  (negb (bool_decide (y mod 100 = 0)) || bool_decide (y mod 400 = 0)).

Definition days_in_month (y m : Z) : Z :=
  if bool_decide (m = 2) then (if is_leap_year y then 29 else 28)
  else if bool_decide (m = 4 ∨ m = 6 ∨ m = 9 ∨ m = 11) then 30
  else 31.

Definition valid_date (y m d : Z) : bool :=
  bool_decide (1 ≤ m ≤ 12) && bool_decide (1 ≤ d ≤ days_in_month y m).

(** [pl.date(year, month, day)]: a date exactly when the three components
    are present and name a calendar day.  [None] stands for "no date": a null
    cell or a compute error, depending on the engine version; in neither case
    is another day substituted. *)
Definition pl_date (y m d : option Z) : option Date :=
  match y, m, d with
  | Some y, Some m, Some d =>
      if valid_date y m d then Some (mkDate y m d) else None
  | _, _, _ => None
  end.

(** ** Data model *)

(** One row of [scan_csv(...).select(columns_to_keep)].  Numeric columns are
    read as Int64, text columns as String; an empty or unreadable cell is
    null ([ignore_errors=True]). *)
Record RawRow : Type := mkRawRow {
  User : option Z;
  Card : option Z;
  Year : option Z;
  Month : option Z;
  Day : option Z;
  Amount : option string;
  Use_Chip : option string;
  Merchant_City : option string;
  Merchant_State : option string;
  MCC : option Z;
  Errors : option string;
  Is_Fraud : option string
}.

Definition Frame : Type := list RawRow.

(** The six group-by columns. *)
Record Key : Type := mkKey {
  key_Year : option Z;
  key_Month : option Z;
  key_Merchant_State : option string;
  key_Use_Chip : option string;
  key_MCC : option Z;
  key_is_fraud : option bool
}.

Global Instance Key_eq_dec : EqDecision Key.
Proof. solve_decision. Defined.

(** ** Configuration (pydantic) *)

Inductive Compression : Type := zstd | snappy | lz4.

(** Validation of [Literal["zstd", "snappy", "lz4"]]: exact match only. *)
Definition validate_compression (s : string) : result Compression :=
  if bool_decide (s = "zstd") then Ok zstd
  else if bool_decide (s = "snappy") then Ok snappy
  else if bool_decide (s = "lz4") then Ok lz4
  else Err ValidationError.

Record ETLConfig : Type := mkETLConfig {
  input_file : string;
  output_cube : string;
  output_summaries_dir : string;
  compression : Compression;
  streaming : bool
}.

(** Keyword arguments of the constructor; [None] takes the field default. *)
Record ETLConfigArgs : Type := mkArgs {
  arg_input_file : option string;
  arg_output_cube : option string;
  arg_output_summaries_dir : option string;
  arg_compression : option string;
  arg_streaming : option bool
}.

Definition no_args : ETLConfigArgs := mkArgs None None None None None.

(** The configuration of [ETLConfig()]. *)
Definition default_config : ETLConfig :=
  {| input_file := "data/credit_card.csv";
     output_cube := "data/bi_cube.parquet";
     output_summaries_dir := "data/summaries";
     compression := zstd;
     streaming := true |}.

Definition ETLConfig_init (a : ETLConfigArgs) : result ETLConfig :=
  c ← match arg_compression a with
      | None => Ok zstd
      | Some s => validate_compression s
      end;
  Ok {| input_file := default "data/credit_card.csv" (arg_input_file a);
        output_cube := default "data/bi_cube.parquet" (arg_output_cube a);
        output_summaries_dir := default "data/summaries" (arg_output_summaries_dir a);
        compression := c;
        streaming := default true (arg_streaming a) |}.

(** ** Float32 *)

(** The operations the pipeline uses on Float32 values.  [str_to_f32] is the
    parser behind [cast(pl.Float32)] on a String column: [None] when the text
    is not a number. *)
Class Float32 (F : Type) : Type := {
  fzero : F;
  fadd : F → F → F;
  fdiv : F → F → F;
  f_of_count : nat → F;
  str_to_f32 : string → option F
}.

(** Addition without rounding.  IEEE addition does not satisfy this; results
    that assume it hold up to the order in which the engine adds. *)
Class ExactSum (F : Type) `{Float32 F} : Prop := {
  fadd_assoc : ∀ x y z : F, fadd x (fadd y z) = fadd (fadd x y) z;
  fadd_comm : ∀ x y : F, fadd x y = fadd y x;
  fadd_zero_l : ∀ x : F, fadd fzero x = x
}.

(** *** Number literals

    The grammar of the float parser: a sign, digits with at most one point
    and at least one digit, an exponent; or [inf], [infinity], [nan] in any
    case. *)

Definition digit_of (c : ascii) : option Z :=
  let n := N_of_ascii c in
  if ((48 <=? n) && (n <=? 57))%N then Some (Z.of_N (n - 48)) else None.

Fixpoint parse_digits (s : string) (acc : Z) (scale : positive)
    (frac seen : bool) : option (Z * positive) :=
  match s with
  | EmptyString => if seen then Some (acc, scale) else None
  | String c s' =>
      if bool_decide (c = "."%char) then
        if frac then None else parse_digits s' acc scale true seen
      else
        match digit_of c with
        | Some d =>
            parse_digits s' (10 * acc + d)
              (if frac then (10 * scale)%positive else scale) frac true
        | None => None
        end
  end.

(** The text before the first [e] or [E], and the text after it. *)
Fixpoint split_exponent (s : string) : string * option string :=
  match s with
  | EmptyString => (EmptyString, None)
  | String c s' =>
      if bool_decide (c = "e"%char ∨ c = "E"%char) then (EmptyString, Some s')
      else let p := split_exponent s' in (String c p.1, p.2)
  end.

Definition split_sign (s : string) : bool * string :=
  match s with
  | String "-" s' => (true, s')
  | String "+" s' => (false, s')
  | _ => (false, s)
  end.

Fixpoint parse_exponent_digits (s : string) (acc : Z) (seen : bool) : option Z :=
  match s with
  | EmptyString => if seen then Some acc else None
  | String c s' =>
      match digit_of c with
      | Some d => parse_exponent_digits s' (10 * acc + d) true
      | None => None
      end
  end.

Definition parse_exponent (s : string) : option Z :=
  let p := split_sign s in
  (λ e, if p.1 then - e else e) <$> parse_exponent_digits p.2 0 false.

(** A decimal literal, standing for
    [(-1)^dec_neg * dec_digits / dec_scale * 10^dec_exp]. *)
Record decimal : Type := mkDecimal {
  dec_neg : bool;
  dec_digits : Z;
  dec_scale : positive;
  dec_exp : Z
}.

Definition parse_literal (s : string) : option decimal :=
  let sg := split_sign s in
  let me := split_exponent sg.2 in
  m ← parse_digits me.1 0 1 false false;
  e ← match me.2 with
      | None => Some 0
      | Some x => parse_exponent x
      end;
  Some {| dec_neg := sg.1; dec_digits := m.1; dec_scale := m.2; dec_exp := e |}.

(** *** Exact rationals

    Literals read without rounding.  The rationals hold no infinity and no
    NaN, so [inf] and [nan] are not numbers here. *)

Definition parse_decimal (s : string) : option Q :=
  d ← parse_literal s;
  let n := if dec_neg d then - dec_digits d else dec_digits d in
  Some (if bool_decide (0 ≤ dec_exp d)
        then Qmake (n * 10 ^ dec_exp d) (dec_scale d)
        else Qmake n (dec_scale d * Z.to_pos (10 ^ (- dec_exp d)))).

Global Instance Q_Float32 : Float32 Q := {|
  fzero := 0%Q;
  fadd := Qplus;
  fdiv := Qdiv;
  f_of_count := λ n, inject_Z (Z.of_nat n);
  str_to_f32 := parse_decimal
|}.

(** *** IEEE binary32

    Floats of 24 bits of precision with round to nearest, ties to even, as
    the standard library specifies them. *)

Definition b32_add : spec_float → spec_float → spec_float := SFadd 24 128.
Definition b32_div : spec_float → spec_float → spec_float := SFdiv 24 128.
Definition b32_of_Z (n : Z) : spec_float := binary_normalize 24 128 n 0 false.

(** The binary32 nearest to [n / d]. *)
Definition b32_of_ratio (neg : bool) (n d : positive) : spec_float :=
  b32_div (S754_finite neg n 0) (S754_finite false d 0).

Definition parse_b32 (s : string) : option spec_float :=
  let sg := split_sign s in
  let word := str_to_lowercase sg.2 in
  if bool_decide (word = "inf" ∨ word = "infinity") then Some (S754_infinity sg.1)
  else if bool_decide (word = "nan") then Some S754_nan
  else
    d ← parse_literal s;
    Some match dec_digits d with
         | Zpos n =>
             if bool_decide (0 ≤ dec_exp d)
             then b32_of_ratio (dec_neg d) (n * Z.to_pos (10 ^ dec_exp d)) (dec_scale d)
             else b32_of_ratio (dec_neg d) n (dec_scale d * Z.to_pos (10 ^ (- dec_exp d)))
         | _ => S754_zero (dec_neg d)
         end.

Global Instance B32_Float32 : Float32 spec_float := {|
  fzero := S754_zero false;
  fadd := b32_add;
  fdiv := b32_div;
  f_of_count := λ n, b32_of_Z (Z.of_nat n);
  str_to_f32 := parse_b32
|}.

(** ** The world the script runs in *)

Record World : Type := mkWorld {
  (* what [scan_csv(path, ignore_errors=True).select(columns_to_keep)]
     delivers, in the order this run of the engine visits the rows *)
  files : string → option Frame;
  (* whether [sink_parquet] can execute the plan in this engine *)
  streaming_sink_supported : bool
}.

(** The scan is given no schema: the reader infers the type of every column
    from the text of its first cells.  It delivers a frame when the file
    exists, holds the twelve columns, and its columns are read with the types
    of [RawRow]: integers for the numeric columns, text for the others.  In
    every other case the plan raises before any row is processed: the file
    or a selected column is missing, or a column such as "Amount" holds only
    plain numbers, is read as a number and the [.str] expressions reject
    it.  These cases are [files w path = None]. *)
Definition scan_csv (path : string) (w : World) : result Frame :=
  match files w path with
  | Some frame => Ok frame
  | None => Err ScanError
  end.

Inductive Level : Type := INFO | WARNING | ERROR.

Inductive Outcome : Type :=
  | Returned                (* [main] returns normally *)
  | SysExit (code : Z)      (* [sys.exit(code)] *)
  | Uncaught (e : exn).     (* an exception leaves [main] *)

(** ** Sample inputs *)

Definition tx (user : Z) (state amount : string) (fraud : string) : RawRow :=
  {| User := Some user; Card := Some 0; Year := Some 2020; Month := Some 1;
     Day := Some 15; Amount := Some amount;
     Use_Chip := Some "Chip Transaction"; Merchant_City := Some "Springfield";
     Merchant_State := Some state; MCC := Some 5411; Errors := None;
     Is_Fraud := Some fraud |}.

(** The three-row input of the specification's literal example. *)
Definition sample_frame : Frame :=
  [tx 1 "CA" "$10.00" "No"; tx 2 "CA" "$20.00" "No"; tx 1 "NY" "$5.00" "No"].

Definition sample_world (frame : Frame) (sink : bool) : World :=
  {| files := λ p, if bool_decide (p = "data/credit_card.csv") then Some frame else None;
     streaming_sink_supported := sink |}.

(** A row whose fraud flag is null. *)
Definition null_flag_frame : Frame :=
  [{| User := Some 7; Card := Some 0; Year := Some 2020; Month := Some 1;
      Day := Some 15; Amount := Some "$1.00"; Use_Chip := Some "Swipe Transaction";
      Merchant_City := Some "Reno"; Merchant_State := Some "NV"; MCC := Some 5411;
      Errors := None; Is_Fraud := None |}].

(** An amount that is not a number once ['$'] and [','] are removed. *)
Definition bad_amount_frame : Frame :=
  [tx 1 "CA" "$10.00" "No"; tx 2 "CA" "$12.5x" "No"].

(** One group, one of whose two amounts is null (an empty cell). *)
Definition null_amount_frame : Frame :=
  [tx 1 "CA" "$10.00" "No";
   {| User := Some 2; Card := Some 0; Year := Some 2020; Month := Some 1;
      Day := Some 15; Amount := None; Use_Chip := Some "Chip Transaction";
      Merchant_City := Some "Springfield"; Merchant_State := Some "CA";
      MCC := Some 5411; Errors := None; Is_Fraud := Some "No" |}].

(** 31 February. *)
Definition feb31_frame : Frame :=
  [{| User := Some 3; Card := Some 1; Year := Some 2021; Month := Some 2;
      Day := Some 31; Amount := Some "$4.50"; Use_Chip := Some "Online Transaction";
      Merchant_City := None; Merchant_State := None; MCC := Some 4829;
      Errors := None; Is_Fraud := Some "No" |}].

(** A compression the configuration does not list. *)
Definition gzip_args : ETLConfigArgs :=
  {| arg_input_file := None; arg_output_cube := None;
     arg_output_summaries_dir := None; arg_compression := Some "gzip";
     arg_streaming := None |}.

Definition set_Day (d : option Z) (r : RawRow) : RawRow :=
  {| User := User r; Card := Card r; Year := Year r; Month := Month r;
     Day := d; Amount := Amount r; Use_Chip := Use_Chip r;
     Merchant_City := Merchant_City r; Merchant_State := Merchant_State r;
     MCC := MCC r; Errors := Errors r; Is_Fraud := Is_Fraud r |}.

(** ** The pipeline *)

Section Pipeline.
Context {F : Type} `{Float32 F}.

(** *** Column expressions of the two [with_columns] steps *)

(** [.cast(pl.Float32)] on a String column, strict. *)
Definition cast_f32 (v : option string) : result (option F) :=
  match v with
  | None => Ok None
  | Some s =>
      match str_to_f32 s with
      | Some x => Ok (Some x)
      | None => Err InvalidOperationError
      end
  end.

(** [pl.col("Amount").str.replace_all(r"[\$,]", "").cast(pl.Float32)] *)
Definition expr_amount_clean (r : RawRow) : result (option F) :=
  cast_f32 (str_replace_all <$> Amount r).

(** [pl.col("Is Fraud?").str.to_lowercase() == "yes"] *)
Definition expr_is_fraud (r : RawRow) : option bool :=
  (λ s, bool_decide (str_to_lowercase s = "yes")) <$> Is_Fraud r.

(** [pl.col("Errors?").is_not_null()] *)
Definition expr_has_error (r : RawRow) : bool :=
  match Errors r with Some _ => true | None => false end.

(** Columns the plan defines and the aggregation never reads. *)
Definition expr_Day (r : RawRow) : result (option Z) := cast_int Int8 (Day r).
Definition expr_Card (r : RawRow) : result (option Z) := cast_int Int8 (Card r).
Definition expr_Merchant_City (r : RawRow) : option string :=
  cast_categorical (Merchant_City r).
Definition expr_date (r : RawRow) : result (option Date) :=
  year ← cast_int Int16 (Year r);
  month ← cast_int Int8 (Month r);
  day ← expr_Day r;
  Ok (pl_date year month day).

(** A row after both [with_columns] steps, restricted to the columns that
    are computed. *)
Record Row : Type := mkRow {
  row_key : Key;
  row_User : option Z;
  amount_clean : option F;
  has_error : bool
}.

Definition with_columns (r : RawRow) : result Row :=
  year ← cast_int Int16 (Year r);
  month ← cast_int Int8 (Month r);
  mcc ← cast_int Int16 (MCC r);
  user ← cast_int Int32 (User r);
  amount ← expr_amount_clean r;
  Ok {| row_key := {| key_Year := year; key_Month := month;
                      key_Merchant_State := cast_categorical (Merchant_State r);
                      key_Use_Chip := cast_categorical (Use_Chip r);
                      key_MCC := mcc;
                      key_is_fraud := expr_is_fraud r |};
        row_User := user;
        amount_clean := amount;
        has_error := expr_has_error r |}.

(** *** Aggregations *)

Definition drop_nulls {A} (xs : list (option A)) : list A := omap id xs.

Definition fsum (xs : list F) : F := foldr fadd fzero xs.

(** [pl.len()] *)
Definition agg_len (g : list Row) : nat := length g.

(** [pl.col("amount_clean").sum()]: nulls are skipped, no value gives 0. *)
Definition agg_sum (g : list Row) : F := fsum (drop_nulls (amount_clean <$> g)).

(** [pl.col("amount_clean").mean()]: the sum of the non-null values over
    their number; null when there is none. *)
Definition agg_mean (g : list Row) : option F :=
  let xs := drop_nulls (amount_clean <$> g) in
  match xs with
  | [] => None
  | _ :: _ => Some (fdiv (fsum xs) (f_of_count (length xs)))
  end.

(** [pl.col("has_error").sum()] *)
Definition agg_error_count (g : list Row) : nat :=
  length (filter (λ r, has_error r = true) g).

(** [pl.col("User").n_unique()] *)
Definition agg_n_unique (g : list Row) : nat :=
  length (remove_dups (row_User <$> g)).

Record CubeRow : Type := mkCubeRow {
  cube_key : Key;
  total_transactions : nat;
  total_amount : F;
  avg_amount : option F;
  error_count : nat;
  unique_users : nat
}.

Local Abbreviation Cube := (list CubeRow).

(** The key and the integer measures of a cube row. *)
Definition counts (c : CubeRow) : Key * nat * nat * nat :=
  (cube_key c, total_transactions c, error_count c, unique_users c).

(** The rows of one key. *)
Definition group (k : Key) (rows : list Row) : list Row :=
  filter (λ r, row_key r = k) rows.

(** [lf.group_by([...])]: one group per distinct key, null keys included. *)
Definition group_by (rows : list Row) : list (Key * list Row) :=
  (λ k, (k, group k rows)) <$> remove_dups (row_key <$> rows).

(** [.agg([...])] on one group. *)
Definition agg (kg : Key * list Row) : CubeRow :=
  {| cube_key := kg.1;
     total_transactions := agg_len kg.2;
     total_amount := agg_sum kg.2;
     avg_amount := agg_mean kg.2;
     error_count := agg_error_count kg.2;
     unique_users := agg_n_unique kg.2 |}.

(** *** [build_optimized_pipeline] *)

(** A lazy frame is a query still to be executed. *)
Definition LazyFrame : Type := World → result Cube.

Definition build_optimized_pipeline (config : ETLConfig) : LazyFrame :=
  λ w,
    lf ← scan_csv (input_file config) w;
    rows ← mapR with_columns lf;
    Ok (agg <$> group_by rows).

(** *** [main] *)

Inductive Event : Type :=
  | Log (level : Level) (msg : string)
  | MkDir (path : string)
  | WriteParquet (path : string) (c : Compression) (cube : Cube)
  | Stat (path : string).

(** [pipeline.sink_parquet(path, compression=c)]: the streaming engine
    executes the plan, if it can, on the rows as this run visits them. *)
Definition sink_parquet (pipeline : LazyFrame) (path : string)
    (c : Compression) (w : World) : result (list Event) :=
  if streaming_sink_supported w then
    cube ← pipeline w; Ok [WriteParquet path c cube]
  else Err StreamingUnsupported.

(** [pipeline.collect(streaming=True)]: falls back to the in-memory engine
    by itself when the plan cannot be streamed.  Within one run there is one
    order of the rows, the one of the world; the order in which another
    engine or another run visits them is another world. *)
Definition collect (pipeline : LazyFrame) (w : World) : result Cube :=
  pipeline w.

(** [result.write_parquet(path, compression=c)] *)
Definition write_parquet (cube : Cube) (path : string) (c : Compression)
    : list Event :=
  [WriteParquet path c cube].

Definition build_log : list Event :=
  [Log INFO "Definiendo pipeline de transformacion...";
   Log INFO "Aplicando optimizacion de tipos (Downcasting)...";
   Log INFO "Preparando agregaciones para el cubo..."].

Definition finish_log (config : ETLConfig) : list Event :=
  [Log INFO "----------------------------------------";
   Log INFO "FINALIZADO EXITOSAMENTE";
   Log INFO "Tiempo total";
   Log INFO "Destino";
   Stat (output_cube config);
   Log INFO "Tamano del cubo Parquet"].

(** The body of [main] once the configuration exists: the outer [try]. *)
Definition run (config : ETLConfig) (w : World) : list Event * Outcome :=
  let pipeline := build_optimized_pipeline config in
  let before :=
    [Log INFO "Iniciando proceso ETL Ultra-Optimizado"] ++ build_log ++
    [MkDir (output_summaries_dir config);
     Log INFO "Ejecutando pipeline en modo STREAMING";
     Log INFO "Intentando sink_parquet para maxima eficiencia..."] in
  match sink_parquet pipeline (output_cube config) (compression config) w with
  | Ok written => (before ++ written ++ finish_log config, Returned)
  | Err _ =>
      let warned :=
        before ++ [Log WARNING "sink_parquet no disponible para este grafo"] in
      match collect pipeline w with
      | Ok result =>
          (warned
             ++ write_parquet result (output_cube config) (compression config)
             ++ finish_log config,
           Returned)
      | Err _ => (warned ++ [Log ERROR "Error critico en el ETL"], SysExit 1)
      end
  end.

(** [main] with the constructor's keyword arguments exposed; the script
    itself calls [ETLConfig()] with none.  The constructor runs before the
    [try], so its exception is not caught. *)
Definition main_with (args : ETLConfigArgs) (w : World)
    : list Event * Outcome :=
  match ETLConfig_init args with
  | Err e => ([], Uncaught e)
  | Ok config => run config w
  end.

Definition main (w : World) : list Event * Outcome := main_with no_args w.

(** What a run left in the output file, if anything. *)
Definition written (tr : list Event) : list Cube :=
  omap (λ ev, match ev with WriteParquet _ _ cube => Some cube | _ => None end) tr.

Definition logged (l : Level) (tr : list Event) : Prop :=
  ∃ msg, Log l msg ∈ tr.

(** *** Quantities of the raw frame that the properties speak about *)

(** The cleaned amounts that parse, over the rows of the scanned frame. *)
Definition parsed_amounts (frame : Frame) : list F :=
  omap (λ r, Amount r ≫= λ s, str_to_f32 (str_replace_all s)) frame.

(** The group a raw row belongs to. *)
Definition raw_key (r : RawRow) : Key :=
  {| key_Year := Year r; key_Month := Month r;
     key_Merchant_State := Merchant_State r; key_Use_Chip := Use_Chip r;
     key_MCC := MCC r; key_is_fraud := expr_is_fraud r |}.

Definition rows_of (k : Key) (frame : Frame) : list RawRow :=
  filter (λ r, raw_key r = k) frame.

(** The rows of a group whose Amount cell is not null. *)
Definition with_amount (k : Key) (frame : Frame) : list RawRow :=
  filter (λ r, is_Some (Amount r)) (rows_of k frame).

End Pipeline.

Arguments Row F : clear implicits.
Arguments CubeRow F : clear implicits.
Abbreviation Cube F := (list (CubeRow F)).
Arguments Event F : clear implicits.
Arguments LazyFrame F : clear implicits.

(** The spellings that equal ["yes"] when case is ignored. *)
Definition yes_spellings : list string :=
  ["yes"; "yeS"; "yEs"; "yES"; "Yes"; "YeS"; "YEs"; "YES"].

(** ** Conditions on the raw rows *)

(** A cell that the strict cast to [t] accepts. *)
Definition fits (t : IntType) (v : option Z) : Prop :=
  match v with
  | Some z => int_min t ≤ z ≤ int_max t
  | None => True
  end.

Global Instance fits_dec t v : Decision (fits t v).
Proof. destruct v; simpl; apply _. Defined.

Section RawRows.
Context {F : Type} `{Float32 F}.

(** The rows on which none of the evaluated casts raises. *)
Definition row_ok (r : RawRow) : bool :=
  bool_decide (fits Int16 (Year r)) && bool_decide (fits Int8 (Month r)) &&
  bool_decide (fits Int16 (MCC r)) && bool_decide (fits Int32 (User r)) &&
  match Amount r with
  | Some s => bool_decide (is_Some (str_to_f32 (str_replace_all s)))
  | None => true
  end.

End RawRows.

(** *** Columns that the reader takes as text

    The reader takes a cell for a number or a boolean only when it is
    written with digits, signs, a point and the letters of [e], [inf],
    [nan], [true], [false]; any other character makes the cell text.  A
    column none of whose first cells is text is not read as text, except
    when these cells are all null. *)

Definition literal_char (c : ascii) : bool :=
  bool_decide (char_to_lowercase c
               ∈ String.list_ascii_of_string "+-.0123456789aefilnrstu").

Definition text_cell (s : string) : bool :=
  existsb (λ c, negb (literal_char c)) (String.list_ascii_of_string s).

(** The first cell that is not null is text, or every cell is null: the
    column is then read as text however many cells the reader looks at. *)
Fixpoint read_as_text (cells : list (option string)) : bool :=
  match cells with
  | [] => true
  | None :: cells' => read_as_text cells'
  | Some s :: _ => text_cell s
  end.

(** The text columns that the plan evaluates are read as text. *)
Definition text_columns (frame : Frame) : bool :=
  read_as_text (Amount <$> frame) && read_as_text (Is_Fraud <$> frame) &&
  read_as_text (Use_Chip <$> frame) && read_as_text (Merchant_State <$> frame).

(** What the evaluated column expressions read of a raw row. *)
Definition consumed (r : RawRow) :=
  (User r, Year r, Month r, str_replace_all <$> Amount r, Use_Chip r,
   Merchant_State r, MCC r, expr_has_error r, expr_is_fraud r).

(** The raw rows that a choice of years and states in the dashboard
    selects. *)
Definition in_selection (years : list Z) (states : list string) (r : RawRow)
    : bool :=
  match Year r, Merchant_State r with
  | Some y, Some s => bool_decide (y ∈ years) && bool_decide (s ∈ states)
  | _, _ => false
  end.

(** The raw rows whose fraud flag reads "yes". *)
Definition flagged (r : RawRow) : bool :=
  match Is_Fraud r with
  | Some s => bool_decide (str_to_lowercase s = "yes")
  | None => false
  end.

(** A frame with a fraud row, error texts, a thousands separator, a refund
    and an online row without merchant state. *)
Definition mixed_frame : Frame :=
  [tx 1 "CA" "$10.00" "No";
   {| User := Some 2; Card := Some 1; Year := Some 2020; Month := Some 1;
      Day := Some 3; Amount := Some "$1,020.50"; Use_Chip := Some "Chip Transaction";
      Merchant_City := Some "Springfield"; Merchant_State := Some "CA";
      MCC := Some 5411; Errors := Some "Bad PIN"; Is_Fraud := Some "Yes" |};
   tx 1 "NY" "$5.00" "YES";
   {| User := Some 3; Card := Some 0; Year := Some 2021; Month := Some 2;
      Day := Some 9; Amount := Some "$-7.25"; Use_Chip := Some "Online Transaction";
      Merchant_City := Some "ONLINE"; Merchant_State := None;
      MCC := Some 4829; Errors := Some "Insufficient Balance";
      Is_Fraud := Some "No" |}].

(** The same transactions with other cards, cities, days, error texts and
    spellings of the flag and of the amounts. *)
Definition mixed_frame_respelled : Frame :=
  [{| User := Some 1; Card := Some 4; Year := Some 2020; Month := Some 1;
      Day := None; Amount := Some "10.00$"; Use_Chip := Some "Chip Transaction";
      Merchant_City := None; Merchant_State := Some "CA"; MCC := Some 5411;
      Errors := None; Is_Fraud := Some "NO" |};
   {| User := Some 2; Card := None; Year := Some 2020; Month := Some 1;
      Day := Some 31; Amount := Some "1020.50"; Use_Chip := Some "Chip Transaction";
      Merchant_City := Some "Shelbyville"; Merchant_State := Some "CA";
      MCC := Some 5411; Errors := Some "Technical Glitch"; Is_Fraud := Some "yEs" |};
   {| User := Some 1; Card := Some 0; Year := Some 2020; Month := Some 1;
      Day := Some 15; Amount := Some "$5.00"; Use_Chip := Some "Chip Transaction";
      Merchant_City := Some "Albany"; Merchant_State := Some "NY"; MCC := Some 5411;
      Errors := None; Is_Fraud := Some "yes" |};
   {| User := Some 3; Card := Some 0; Year := Some 2021; Month := Some 2;
      Day := Some 31; Amount := Some "$-7,.25"; Use_Chip := Some "Online Transaction";
      Merchant_City := Some "ONLINE"; Merchant_State := None;
      MCC := Some 4829; Errors := Some "Bad Zipcode";
      Is_Fraud := Some "no" |}].

(** Amounts of two groups whose sum in binary32 depends on the order of the
    additions: 16777216 + 1 is not a binary32 number. *)
Definition rounding_frame : Frame :=
  [tx 1 "NY" "$1" "No"; tx 2 "CA" "$16,777,216" "No"; tx 3 "NY" "$1" "No"].


(** A year that does not fit 16 bits. *)
Definition big_year_frame : Frame :=
  [tx 1 "CA" "$10.00" "No";
   {| User := Some 2; Card := Some 0; Year := Some 40000; Month := Some 1;
      Day := Some 15; Amount := Some "$3.00"; Use_Chip := Some "Chip Transaction";
      Merchant_City := Some "Springfield"; Merchant_State := Some "CA";
      MCC := Some 5411; Errors := None; Is_Fraud := Some "No" |}].

(** ** The dashboard ([src/app.py]) *)

Section Dashboard.
Context {F : Type} `{Float32 F}.

(** [s.is_in(values)]: a null cell is in no list of values. *)
Definition is_in `{EqDecision A} (v : option A) (values : list A) : option bool :=
  (λ x, bool_decide (x ∈ values)) <$> v.

(** [a & b] on nullable booleans. *)
Definition and_nullable (a b : option bool) : option bool :=
  match a, b with
  | Some false, _ | _, Some false => Some false
  | Some true, Some true => Some true
  | _, _ => None
  end.

(** [df.filter(m)]: the rows where [m] is true; false and null are dropped. *)
Definition df_filter (m : CubeRow F → option bool) (df : list (CubeRow F))
    : list (CubeRow F) :=
  filter (λ c, m c = Some true) df.

(** [(df["Year"].is_in(selected_years)) &
     (df["Merchant State"].is_in(selected_states))] *)
Definition mask (selected_years : list Z) (selected_states : list string)
    (c : CubeRow F) : option bool :=
  and_nullable (is_in (key_Year (cube_key c)) selected_years)
               (is_in (key_Merchant_State (cube_key c)) selected_states).

Definition df_filtered (selected_years : list Z) (selected_states : list string)
    (df : list (CubeRow F)) : list (CubeRow F) :=
  df_filter (mask selected_years selected_states) df.

(** [df_filtered["total_transactions"].sum()] *)
Definition total_trans (dff : list (CubeRow F)) : nat :=
  sum_list (total_transactions <$> dff).

(** [df_filtered["total_amount"].sum()] *)
Definition total_amt (dff : list (CubeRow F)) : F :=
  fsum (total_amount <$> dff).

(** [pl.col("is_fraud") == True] *)
Definition is_fraud_true (c : CubeRow F) : option bool :=
  (λ b, bool_decide (b = true)) <$> key_is_fraud (cube_key c).

(** [df_filtered.filter(pl.col("is_fraud") == True)["total_transactions"].sum()] *)
Definition fraud_cnt (dff : list (CubeRow F)) : nat :=
  sum_list (total_transactions <$> df_filter is_fraud_true dff).

(** [dff.group_by(cols).agg(pl.col("total_amount").sum())] *)
Definition sum_amount_by {K} `{EqDecision K} (cols : CubeRow F → K)
    (dff : list (CubeRow F)) : list (K * F) :=
  (λ k, (k, fsum (total_amount <$> filter (λ c, cols c = k) dff)))
    <$> remove_dups (cols <$> dff).

(** The monthly series, before it is sorted for display. *)
Definition temp_df (dff : list (CubeRow F)) : list ((option Z * option Z) * F) :=
  sum_amount_by (λ c, (key_Year (cube_key c), key_Month (cube_key c))) dff.

(** The amounts per transaction type. *)
Definition type_df (dff : list (CubeRow F)) : list (option string * F) :=
  sum_amount_by (λ c, key_Use_Chip (cube_key c)) dff.

End Dashboard.

(** * Properties *)

(** ** Sums over a commutative monoid *)

Section BigSum.
Context {M : Type} (op : M → M → M) (e : M).
Hypothesis op_assoc : ∀ x y z, op x (op y z) = op (op x y) z.
Hypothesis op_comm : ∀ x y, op x y = op y x.
Hypothesis op_id : ∀ x, op e x = x.

Local Abbreviation big := (foldr op e).

Lemma big_split {K} (a b : K → M) (ks : list K) :
  big ((λ k, op (a k) (b k)) <$> ks) = op (big (a <$> ks)) (big (b <$> ks)).
Proof.
  induction ks as [|k ks IH]; csimpl.
  - by rewrite op_id.
  - rewrite IH, !op_assoc. f_equal.
    rewrite <- !op_assoc. f_equal. apply op_comm.
Qed.

Lemma big_unit {K} (ks : list K) : big ((λ _, e) <$> ks) = e.
Proof. induction ks as [|k ks IH]; csimpl; [done|]. by rewrite IH, op_id. Qed.

Lemma big_indicator_out {K} `{EqDecision K} (k0 : K) (x : M) (ks : list K) :
  k0 ∉ ks → big ((λ k, if decide (k0 = k) then x else e) <$> ks) = e.
Proof.
  induction ks as [|k ks IH]; csimpl; [done|].
  intros Hn. apply not_elem_of_cons in Hn as [Hne Hn].
  rewrite decide_False by done. by rewrite op_id, IH.
Qed.

Lemma big_indicator {K} `{EqDecision K} (k0 : K) (x : M) (ks : list K) :
  NoDup ks → k0 ∈ ks →
  big ((λ k, if decide (k0 = k) then x else e) <$> ks) = x.
Proof.
  induction 1 as [|k ks Hk Hnd IH]; csimpl.
  - by intros ?%elem_of_nil.
  - intros Hin. destruct (decide (k0 = k)) as [->|Hne].
    + rewrite big_indicator_out by done. by rewrite op_comm, op_id.
    + apply elem_of_cons in Hin as [?|Hin]; [done|].
      by rewrite op_id, IH.
Qed.

(** Summing group by group is summing everything, whatever the keys. *)
Lemma big_partition {A K} `{EqDecision K} (key : A → K) (m : A → M)
    (rows : list A) (ks : list K) :
  NoDup ks → (∀ r, r ∈ rows → key r ∈ ks) →
  big ((λ k, big (m <$> filter (λ r, key r = k) rows)) <$> ks)
  = big (m <$> rows).
Proof.
  intros Hnd. induction rows as [|r rows IH]; intros Hks.
  - csimpl. apply big_unit.
  - rewrite fmap_cons. simpl foldr at 3.
    rewrite <- IH by (intros; apply Hks; by right).
    rewrite <- (big_indicator (key r) (m r) ks Hnd) at 1
      by (apply Hks; by left).
    rewrite <- big_split. f_equal. apply list_fmap_ext; intros _ k _.
    rewrite filter_cons. destruct (decide (key r = k)); csimpl; [done|].
    by rewrite op_id.
Qed.

Lemma big_perm (xs ys : list M) : xs ≡ₚ ys → big xs = big ys.
Proof.
  induction 1 as [|x xs ys _ IH|x y xs|xs ys zs _ IH1 _ IH2]; csimpl.
  - done.
  - by rewrite IH.
  - rewrite !op_assoc. f_equal. apply op_comm.
  - by rewrite IH1.
Qed.
End BigSum.

(** ** Groups partition the rows *)

Lemma concat_groups {A K} `{EqDecision K} (key : A → K) (rows : list A)
    (ks : list K) :
  NoDup ks → (∀ r, r ∈ rows → key r ∈ ks) →
  concat ((λ k, filter (λ r, key r = k) rows) <$> ks) ≡ₚ rows.
Proof.
  intros Hnd. revert rows.
  induction Hnd as [|k ks Hk Hnd IH]; intros rows Hcov.
  - destruct rows as [|r rows]; [done|].
    destruct (not_elem_of_nil (key r)). apply Hcov. by left.
  - csimpl.
    trans (filter (λ r, key r = k) rows ++ filter (λ r, ¬ key r = k) rows);
      [|apply filter_app_complement].
    apply Permutation_app; [done|].
    rewrite <- (IH (filter (λ r, ¬ key r = k) rows)).
    + apply reflexive_eq. f_equal. apply list_fmap_ext. intros i k' Hk'.
      rewrite list_filter_filter. apply list_filter_iff. intros r.
      split; [|tauto]. intros Hr. split; [done|]. intros Hrk.
      apply Hk. apply list_elem_of_lookup. exists i. congruence.
    + intros r [Hr Hin]%list_elem_of_filter.
      apply Hcov in Hin. apply elem_of_cons in Hin as [?|?]; [done|done].
Qed.

(** ** Facts about the stages *)

Section Stages.
Context {F : Type} `{Float32 F}.

Lemma cast_int_Ok t v v' : cast_int t v = Ok v' → v' = v.
Proof.
  destruct v as [z|]; simpl; [|congruence].
  case_bool_decide; congruence.
Qed.

Lemma cast_int_Err t v e : cast_int t v = Err e → e = InvalidOperationError.
Proof.
  destruct v as [z|]; simpl; [|congruence].
  case_bool_decide; congruence.
Qed.

Lemma cast_f32_Ok v x :
  cast_f32 v = Ok x → x = v ≫= str_to_f32 ∧ (∀ s, v = Some s → is_Some (str_to_f32 s)).
Proof.
  destruct v as [s|]; simpl.
  - destruct (str_to_f32 s) as [y|] eqn:E; [|congruence].
    intros [= <-]. split; [done|]. intros ? [= <-]. rewrite E. by eexists.
  - intros [= <-]. split; [done|]. congruence.
Qed.

Lemma cast_f32_Err v e : cast_f32 v = Err e → e = InvalidOperationError.
Proof.
  destruct v as [s|]; simpl; [|congruence].
  destruct (str_to_f32 s); congruence.
Qed.

(** What a successful [with_columns] computed. *)
Lemma with_columns_Ok r row :
  with_columns r = Ok row →
  row_key row = raw_key r ∧ row_User row = User r ∧
  amount_clean row = (Amount r ≫= λ s, str_to_f32 (str_replace_all s)) ∧
  has_error row = expr_has_error r.
Proof.
  unfold with_columns, expr_amount_clean.
  destruct (cast_int Int16 (Year r)) as [y|] eqn:Ey; [|done].
  destruct (cast_int Int8 (Month r)) as [m|] eqn:Em; [|done].
  destruct (cast_int Int16 (MCC r)) as [c|] eqn:Ec; [|done].
  destruct (cast_int Int32 (User r)) as [u|] eqn:Eu; [|done].
  destruct (cast_f32 (str_replace_all <$> Amount r)) as [a|] eqn:Ea; [|done].
  cbn. intros [= <-]; cbn.
  apply cast_int_Ok in Ey, Em, Ec, Eu. apply cast_f32_Ok in Ea as [-> _].
  subst. repeat split. by destruct (Amount r).
Qed.

Lemma with_columns_Err r e : with_columns r = Err e → e = InvalidOperationError.
Proof.
  unfold with_columns, expr_amount_clean.
  destruct (cast_int Int16 (Year r)) as [y|] eqn:Ey;
    [|cbn; intros [= <-]; by eapply cast_int_Err].
  destruct (cast_int Int8 (Month r)) as [m|] eqn:Em;
    [|cbn; intros [= <-]; by eapply cast_int_Err].
  destruct (cast_int Int16 (MCC r)) as [c|] eqn:Ec;
    [|cbn; intros [= <-]; by eapply cast_int_Err].
  destruct (cast_int Int32 (User r)) as [u|] eqn:Eu;
    [|cbn; intros [= <-]; by eapply cast_int_Err].
  destruct (cast_f32 (str_replace_all <$> Amount r)) as [a|] eqn:Ea;
    [done|cbn; intros [= <-]; by eapply cast_f32_Err].
Qed.

(** A row passes only if its amount, when present, parses. *)
Lemma with_columns_parsed r row s :
  with_columns r = Ok row → Amount r = Some s →
  is_Some (str_to_f32 (str_replace_all s)).
Proof.
  unfold with_columns, expr_amount_clean. intros E Ha. rewrite Ha in E.
  destruct (cast_int Int16 (Year r)); [|done].
  destruct (cast_int Int8 (Month r)); [|done].
  destruct (cast_int Int16 (MCC r)); [|done].
  destruct (cast_int Int32 (User r)); [|done].
  cbn in E. destruct (str_to_f32 (str_replace_all s)); [by eexists|done].
Qed.

(** An amount that does not parse fails the row. *)
Lemma with_columns_bad_amount r s :
  Amount r = Some s → str_to_f32 (str_replace_all s) = None →
  with_columns r = Err InvalidOperationError.
Proof.
  intros Ha Hp. destruct (with_columns r) as [row|e] eqn:E.
  - eapply with_columns_parsed in E as [x Hx]; [|done]. congruence.
  - by apply with_columns_Err in E as ->.
Qed.

(** *** [mapR] *)

Lemma mapR_Ok {A B} (f : A → result B) l l' :
  mapR f l = Ok l' ↔ Forall2 (λ a b, f a = Ok b) l l'.
Proof.
  revert l'. induction l as [|a l IH]; intros l'; simpl.
  - split; [intros [= <-]; constructor|by inversion 1].
  - destruct (f a) as [b|e] eqn:Ea; cbn.
    + destruct (mapR f l) as [bs|e] eqn:El; cbn.
      * split.
        -- intros [= <-]. constructor; [done|]. by apply IH.
        -- inversion 1 as [|? b' ? bs' Hb Hbs]; subst.
           apply IH in Hbs. congruence.
      * split; [done|]. inversion 1 as [|? b' ? bs' Hb Hbs]; subst.
        apply IH in Hbs. congruence.
    + split; [done|]. inversion 1; congruence.
Qed.

Lemma mapR_Err {A B} (f : A → result B) l a e :
  a ∈ l → f a = Err e → ∃ e', mapR f l = Err e'.
Proof.
  intros Hin Ha. destruct (mapR f l) as [l'|e'] eqn:E; [|by eexists].
  apply mapR_Ok in E. apply list_elem_of_lookup in Hin as [i Hi].
  destruct (Forall2_lookup_l _ _ _ _ _ E Hi) as (b & _ & Hb). congruence.
Qed.

Lemma mapR_with_columns_Err frame e :
  mapR with_columns frame = Err e → e = InvalidOperationError.
Proof.
  induction frame as [|r frame IH]; simpl; [done|].
  destruct (with_columns r) as [row|e0] eqn:Er; cbn.
  - destruct (mapR with_columns frame); cbn; [done|].
    intros [= <-]. by apply IH.
  - intros [= <-]. by eapply with_columns_Err.
Qed.

(** Reordering the input reorders the rows and nothing else. *)
Lemma mapR_Permutation {A B} (f : A → result B) l1 l2 r1 :
  l1 ≡ₚ l2 → mapR f l1 = Ok r1 → ∃ r2, mapR f l2 = Ok r2 ∧ r1 ≡ₚ r2.
Proof.
  intros Hp. revert r1.
  induction Hp as [|a l1 l2 _ IH|a b l|l1 l2 l3 _ IH1 _ IH2]; intros r1.
  - intros [= <-]. by exists [].
  - simpl. destruct (f a) as [b|]; [|done]. cbn.
    destruct (mapR f l1) as [bs|] eqn:E; [|done]. cbn. intros [= <-].
    destruct (IH bs eq_refl) as (bs' & -> & Hbs). cbn.
    exists (b :: bs'). split; [done|]. by constructor.
  - simpl. destruct (f b) as [b'|]; [|done]. cbn.
    destruct (f a) as [a'|]; [|done]. cbn.
    destruct (mapR f l) as [bs|]; [|done]. cbn. intros [= <-].
    exists (a' :: b' :: bs). split; [done|]. constructor.
  - intros E1. destruct (IH1 _ E1) as (r2 & E2 & H12).
    destruct (IH2 _ E2) as (r3 & E3 & H23).
    exists r3. split; [done|]. by etrans.
Qed.

(** *** The plan as a whole *)

Lemma pipeline_Ok config w cube :
  build_optimized_pipeline config w = Ok cube ↔
  ∃ frame rows,
    scan_csv (input_file config) w = Ok frame ∧
    mapR with_columns frame = Ok rows ∧
    cube = agg <$> group_by rows.
Proof.
  unfold build_optimized_pipeline. split.
  - destruct (scan_csv (input_file config) w) as [frame|]; [|done]. cbn.
    destruct (mapR with_columns frame) as [rows|] eqn:E; [|done]. cbn.
    intros [= <-]. by exists frame, rows.
  - intros (frame & rows & -> & E & ->). cbn. by rewrite E.
Qed.

Lemma scan_csv_Ok path w frame :
  scan_csv path w = Ok frame ↔ files w path = Some frame.
Proof. unfold scan_csv. destruct (files w path); split; congruence. Qed.

Lemma rows_related frame rows :
  mapR with_columns frame = Ok rows →
  Forall2 (λ r row, with_columns r = Ok row) frame rows.
Proof. apply mapR_Ok. Qed.

Lemma Forall2_filter_rel {A B} (R : A → B → Prop) (P : A → Prop) (Q : B → Prop)
    `{!∀ a, Decision (P a)} `{!∀ b, Decision (Q b)} l l' :
  (∀ a b, R a b → (P a ↔ Q b)) →
  Forall2 R l l' → Forall2 R (filter P l) (filter Q l').
Proof.
  intros HPQ. induction 1 as [|a b l l' Hab _ IH]; [constructor|].
  rewrite !filter_cons. specialize (HPQ a b Hab).
  destruct (decide (P a)), (decide (Q b)); try tauto. by constructor.
Qed.

(** The group of a key, before and after the column steps. *)
Lemma group_rows_of k frame rows :
  Forall2 (λ r row, with_columns r = Ok row) frame rows →
  Forall2 (λ r row, with_columns r = Ok row) (rows_of k frame) (group k rows).
Proof.
  apply Forall2_filter_rel. intros r row Hr.
  apply with_columns_Ok in Hr as (-> & _). done.
Qed.

Lemma elem_of_cube rows c :
  c ∈ agg <$> group_by rows ↔
  ∃ row, row ∈ rows ∧ c = agg (row_key row, group (row_key row) rows).
Proof.
  unfold group_by. rewrite <- list_fmap_compose, list_elem_of_fmap.
  setoid_rewrite elem_of_remove_dups. setoid_rewrite list_elem_of_fmap.
  split.
  - intros (k & -> & row & -> & Hrow). by exists row.
  - intros (row & Hrow & ->). exists (row_key row). split; [done|].
    by exists row.
Qed.

Lemma group_nonempty (row : Row F) rows :
  row ∈ rows → row ∈ group (row_key row) rows.
Proof. intros. by apply list_elem_of_filter. Qed.

(** *** Counting *)

Lemma sum_list_foldr (l : list nat) : sum_list l = foldr Nat.add 0%nat l.
Proof. induction l; simpl; congruence. Qed.

Lemma length_foldr {A} (l : list A) :
  length l = foldr Nat.add 0%nat ((λ _, 1%nat) <$> l).
Proof. induction l; csimpl; congruence. Qed.

Lemma count_partition rows :
  sum_list (total_transactions <$> (agg <$> group_by rows)) = length rows.
Proof.
  unfold group_by. rewrite <- !list_fmap_compose, sum_list_foldr.
  rewrite (length_foldr rows).
  rewrite <- (big_partition Nat.add 0%nat Nat.add_assoc Nat.add_comm
                Nat.add_0_l (@row_key F) (λ _ : Row F, 1%nat) rows
                (remove_dups (row_key <$> rows))).
  - f_equal. apply list_fmap_ext; intros _ k _. cbn.
    unfold agg_len, group. apply length_foldr.
  - apply NoDup_remove_dups.
  - intros r Hr. apply elem_of_remove_dups, list_elem_of_fmap. by exists r.
Qed.

(** *** Amounts *)

Lemma amounts_of_rows frame rows :
  Forall2 (λ r row, with_columns r = Ok row) frame rows →
  drop_nulls (amount_clean <$> rows) = parsed_amounts frame.
Proof.
  unfold drop_nulls, parsed_amounts.
  induction 1 as [|r row frame rows Hr _ IH]; [done|]. csimpl.
  apply with_columns_Ok in Hr as (_ & _ & -> & _). by rewrite IH.
Qed.

Lemma fsum_drop_nulls `{!ExactSum F} (xs : list (option F)) :
  fsum (drop_nulls xs) = foldr fadd fzero (default fzero <$> xs).
Proof.
  unfold fsum, drop_nulls.
  induction xs as [|[x|] xs IH]; csimpl; [done|by rewrite IH|].
  by rewrite IH, fadd_zero_l.
Qed.

Lemma amount_partition `{!ExactSum F} rows :
  fsum (total_amount <$> (agg <$> group_by rows))
  = fsum (drop_nulls (amount_clean <$> rows)).
Proof.
  unfold group_by. rewrite <- !list_fmap_compose.
  rewrite (fsum_drop_nulls (amount_clean <$> rows)), <- list_fmap_compose.
  unfold fsum.
  rewrite <- (big_partition fadd fzero fadd_assoc fadd_comm fadd_zero_l
                (@row_key F) (default fzero ∘ amount_clean) rows
                (remove_dups (row_key <$> rows))).
  - f_equal. apply list_fmap_ext; intros _ k _. cbn.
    rewrite list_fmap_compose. apply (fsum_drop_nulls (amount_clean <$> _)).
  - apply NoDup_remove_dups.
  - intros r Hr. apply elem_of_remove_dups, list_elem_of_fmap. by exists r.
Qed.

(** *** Order of the rows *)

Lemma remove_dups_Permutation `{EqDecision A} (l1 l2 : list A) :
  l1 ≡ₚ l2 → remove_dups l1 ≡ₚ remove_dups l2.
Proof.
  intros Hp. apply NoDup_Permutation; try apply NoDup_remove_dups.
  intros x. rewrite !elem_of_remove_dups. by rewrite Hp.
Qed.

Lemma drop_nulls_Permutation {A} (xs ys : list (option A)) :
  xs ≡ₚ ys → drop_nulls xs ≡ₚ drop_nulls ys.
Proof.
  unfold drop_nulls.
  induction 1 as [|[x|] xs ys _ IH|[x|] [y|] xs|xs ys zs _ IH1 _ IH2]; csimpl;
    try done; try by constructor.
  by etrans.
Qed.

Lemma fsum_Permutation `{!ExactSum F} (xs ys : list F) :
  xs ≡ₚ ys → fsum xs = fsum ys.
Proof. apply big_perm; [apply fadd_assoc|apply fadd_comm]. Qed.

(** Within a group, no measure depends on the order of the rows. *)
Lemma agg_Permutation `{!ExactSum F} k (g1 g2 : list (Row F)) :
  g1 ≡ₚ g2 → agg (k, g1) = agg (k, g2).
Proof.
  intros Hp.
  assert (Hx : drop_nulls (amount_clean <$> g1) ≡ₚ drop_nulls (amount_clean <$> g2))
    by by apply drop_nulls_Permutation, fmap_Permutation.
  unfold agg; cbn. f_equal.
  - unfold agg_len. by rewrite Hp.
  - unfold agg_sum. by apply fsum_Permutation.
  - unfold agg_mean. rewrite (fsum_Permutation _ _ Hx).
    pose proof (Permutation_length Hx) as Hl.
    destruct (drop_nulls (amount_clean <$> g1)), (drop_nulls (amount_clean <$> g2));
      try done. by rewrite Hl.
  - unfold agg_error_count. by rewrite Hp.
  - unfold agg_n_unique. apply Permutation_length, remove_dups_Permutation.
    by apply fmap_Permutation.
Qed.

(** Reordering the rows reorders the cube and changes no cube row. *)
Lemma cube_Permutation `{!ExactSum F} (rows1 rows2 : list (Row F)) :
  rows1 ≡ₚ rows2 → agg <$> group_by rows1 ≡ₚ agg <$> group_by rows2.
Proof.
  intros Hp. unfold group_by. rewrite <- !list_fmap_compose.
  assert (E : (agg ∘ (λ k, (k, group k rows1))) <$> remove_dups (row_key <$> rows1)
            = (agg ∘ (λ k, (k, group k rows2))) <$> remove_dups (row_key <$> rows1)).
  { apply list_fmap_ext. intros _ k _. cbn.
    apply agg_Permutation. unfold group. by rewrite Hp. }
  rewrite E.
  apply fmap_Permutation, remove_dups_Permutation. by apply fmap_Permutation.
Qed.

(** The amounts summed in the cube rows are the amounts of the rows, each
    once. *)
Lemma amount_groups rows :
  ∃ groups : list (list F),
    total_amount <$> (agg <$> group_by rows) = fsum <$> groups ∧
    concat groups ≡ₚ drop_nulls (amount_clean <$> rows).
Proof.
  exists ((λ g, drop_nulls (amount_clean <$> g)) <$>
          ((λ k, group k rows) <$> remove_dups (row_key <$> rows))).
  split.
  - unfold group_by. rewrite <- !list_fmap_compose. by apply list_fmap_ext.
  - trans (drop_nulls (amount_clean <$>
             concat ((λ k, group k rows) <$> remove_dups (row_key <$> rows)))).
    + apply reflexive_eq. unfold drop_nulls.
      induction (remove_dups (row_key <$> rows)) as [|k ks IH]; [done|].
      csimpl. by rewrite fmap_app, omap_app, IH.
    + apply drop_nulls_Permutation, fmap_Permutation.
      apply concat_groups; [apply NoDup_remove_dups|].
      intros r Hr. apply elem_of_remove_dups, list_elem_of_fmap. by exists r.
Qed.

(** The keys and the integer measures do not depend on the order of the
    rows, whatever the arithmetic. *)
Lemma counts_Permutation (rows1 rows2 : list (Row F)) :
  rows1 ≡ₚ rows2 →
  counts <$> (agg <$> group_by rows1) ≡ₚ counts <$> (agg <$> group_by rows2).
Proof.
  intros Hp. unfold group_by. rewrite <- !list_fmap_compose.
  assert (E : (counts ∘ agg ∘ (λ k, (k, group k rows1))) <$> remove_dups (row_key <$> rows1)
            = (counts ∘ agg ∘ (λ k, (k, group k rows2))) <$> remove_dups (row_key <$> rows1)).
  { apply list_fmap_ext. intros _ k _. unfold counts; cbn.
    assert (Hg : group k rows1 ≡ₚ group k rows2) by (unfold group; by rewrite Hp).
    unfold agg_len, agg_error_count, agg_n_unique.
    f_equal; [f_equal; [f_equal|]|].
    - by rewrite Hg.
    - by rewrite Hg.
    - apply Permutation_length, remove_dups_Permutation. by apply fmap_Permutation. }
  rewrite E.
  apply fmap_Permutation, remove_dups_Permutation. by apply fmap_Permutation.
Qed.

Lemma pipeline_Permutation config w1 w2 frame1 frame2 cube1 :
  scan_csv (input_file config) w1 = Ok frame1 →
  scan_csv (input_file config) w2 = Ok frame2 →
  frame1 ≡ₚ frame2 →
  build_optimized_pipeline config w1 = Ok cube1 →
  ∃ cube2,
    build_optimized_pipeline config w2 = Ok cube2 ∧
    counts <$> cube1 ≡ₚ counts <$> cube2 ∧
    (ExactSum F → cube1 ≡ₚ cube2).
Proof.
  intros Hs1 Hs2 Hp (frame & rows1 & Hs & Hrows & ->)%pipeline_Ok.
  assert (frame = frame1) as -> by congruence.
  destruct (mapR_Permutation _ _ _ _ Hp Hrows) as (rows2 & Hrows2 & Hp2).
  exists (agg <$> group_by rows2). split; [|split].
  - apply pipeline_Ok. by exists frame2, rows2.
  - by apply counts_Permutation.
  - intros ?. by apply cube_Permutation.
Qed.

(** *** A cube row and the raw rows of its group *)

Lemma cube_row_group frame rows c :
  Forall2 (λ r row, with_columns r = Ok row) frame rows →
  c ∈ agg <$> group_by rows →
  ∃ g, Forall2 (λ r row, with_columns r = Ok row) (rows_of (cube_key c) frame) g ∧
       g ≠ [] ∧ c = agg (cube_key c, g).
Proof.
  intros Hrel (row & Hrow & ->)%elem_of_cube. cbn.
  exists (group (row_key row) rows). split; [by apply group_rows_of|].
  split; [|done]. intros Hnil.
  apply group_nonempty in Hrow. rewrite Hnil in Hrow. by apply elem_of_nil in Hrow.
Qed.

Lemma cube_row_of_raw frame rows r :
  Forall2 (λ r row, with_columns r = Ok row) frame rows →
  r ∈ frame →
  ∃ c, c ∈ agg <$> group_by rows ∧ cube_key c = raw_key r.
Proof.
  intros Hrel [i Hi]%list_elem_of_lookup.
  destruct (Forall2_lookup_l _ _ _ _ _ Hrel Hi) as (row & Hrow & Hr).
  exists (agg (row_key row, group (row_key row) rows)). split.
  - apply elem_of_cube. exists row. split; [|done].
    apply list_elem_of_lookup. by exists i.
  - cbn. by apply with_columns_Ok in Hr as (-> & _).
Qed.

(** The non-null amounts of a group are those of its rows with an Amount
    cell. *)
Lemma non_null_amounts l g :
  Forall2 (λ r row, with_columns r = Ok row) l g →
  length (drop_nulls (amount_clean <$> g))
  = length (filter (λ r, is_Some (Amount r)) l).
Proof.
  unfold drop_nulls. induction 1 as [|r row l g Hr _ IH]; [done|].
  rewrite filter_cons. csimpl.
  pose proof (with_columns_Ok _ _ Hr) as (_ & _ & Ha & _).
  destruct (Amount r) as [s|] eqn:Es.
  - destruct (with_columns_parsed _ _ _ Hr Es) as [x Hx].
    cbn in Ha. rewrite Hx in Ha. rewrite Ha. cbn.
    rewrite decide_True by by eexists. cbn. by rewrite IH.
  - cbn in Ha. rewrite Ha. cbn.
    rewrite decide_False by by intros [? ?]. done.
Qed.

Lemma filter_all {A} (P : A → Prop) `{!∀ a, Decision (P a)} (l : list A) :
  (∀ a, a ∈ l → P a) → filter P l = l.
Proof.
  induction l as [|a l IH]; intros Hall; [done|].
  rewrite filter_cons, decide_True by (apply Hall; by left).
  f_equal. apply IH. intros; apply Hall. by right.
Qed.

Lemma length_remove_dups `{EqDecision A} (l : list A) :
  (length (remove_dups l) ≤ length l)%nat.
Proof.
  induction l as [|x l IH]; simpl; [done|].
  destruct (decide_rel elem_of x l); simpl; lia.
Qed.

(** *** The two write paths of [run] *)

Local Ltac not_logged :=
  let msg := fresh "msg" in
  let Hin := fresh "Hin" in
  intros [msg Hin]; cbn in Hin;
  repeat (apply elem_of_cons in Hin as [Hin|Hin]; [discriminate|]);
  by apply elem_of_nil in Hin.

Local Ltac is_logged m :=
  exists m; cbn; rewrite !elem_of_cons; tauto.

Lemma run_streamed config w cube :
  streaming_sink_supported w = true →
  build_optimized_pipeline config w = Ok cube →
  written (run config w).1 = [cube] ∧ (run config w).2 = Returned ∧
  ¬ logged WARNING (run config w).1 ∧ ¬ logged ERROR (run config w).1.
Proof.
  intros Hs Hp. unfold run, sink_parquet. rewrite Hs, Hp. cbn.
  repeat split; not_logged.
Qed.

Lemma run_fell_back config w cube :
  streaming_sink_supported w = false →
  build_optimized_pipeline config w = Ok cube →
  written (run config w).1 = [cube] ∧ (run config w).2 = Returned ∧
  logged WARNING (run config w).1 ∧ ¬ logged ERROR (run config w).1.
Proof.
  intros Hs Hp. unfold run, sink_parquet, collect. rewrite Hs, Hp. cbn.
  repeat split.
  - is_logged "sink_parquet no disponible para este grafo".
  - not_logged.
Qed.

Lemma run_failed config w e :
  build_optimized_pipeline config w = Err e →
  written (run config w).1 = [] ∧ (run config w).2 = SysExit 1 ∧
  logged WARNING (run config w).1 ∧ logged ERROR (run config w).1.
Proof.
  intros Hp. unfold run, sink_parquet, collect. rewrite Hp.
  destruct (streaming_sink_supported w); cbn; repeat split.
  all: first [ is_logged "sink_parquet no disponible para este grafo"
             | is_logged "Error critico en el ETL" ].
Qed.

(** *** Lower case *)

Lemma char_to_lowercase_inv (c : ascii) :
  (char_to_lowercase c = "y"%char ↔ c = "y"%char ∨ c = "Y"%char) ∧
  (char_to_lowercase c = "e"%char ↔ c = "e"%char ∨ c = "E"%char) ∧
  (char_to_lowercase c = "s"%char ↔ c = "s"%char ∨ c = "S"%char).
Proof.
  destruct c as [[] [] [] [] [] [] [] []]; vm_compute;
    repeat split; intros; try discriminate; try tauto;
    repeat match goal with H : _ ∨ _ |- _ => destruct H end; discriminate.
Qed.

Lemma yes_ignoring_case (s : string) :
  str_to_lowercase s = "yes" ↔ s ∈ yes_spellings.
Proof.
  unfold yes_spellings. rewrite !elem_of_cons, elem_of_nil.
  destruct s as [|c1 [|c2 [|c3 [|c4 s]]]]; simpl;
    try (split; [discriminate|intros Hs; repeat destruct Hs as [Hs|Hs]; done]).
  destruct (char_to_lowercase_inv c1) as (H1 & _ & _).
  destruct (char_to_lowercase_inv c2) as (_ & H2 & _).
  destruct (char_to_lowercase_inv c3) as (_ & _ & H3).
  split.
  - intros [= E1 E2 E3]. apply H1 in E1. apply H2 in E2. apply H3 in E3.
    destruct E1, E2, E3; subst; tauto.
  - intros Hs.
    assert (char_to_lowercase c1 = "y"%char ∧ char_to_lowercase c2 = "e"%char
            ∧ char_to_lowercase c3 = "s"%char) as (-> & -> & ->); [|done].
    rewrite H1, H2, H3.
    repeat destruct Hs as [Hs|Hs]; try done; injection Hs as -> -> ->; tauto.
Qed.

(** ** The properties of the specification *)

(** Claim C1, as the code has it.  When the pipeline produces a cube, the
    amounts summed in its rows are exactly the cleaned amounts that parsed,
    over all rows of the scanned frame, each in one cube row (null amounts
    count on neither side).  The sum of [total_amount] over the cube rows
    equals the sum of those amounts when addition does not round
    ([ExactSum]); in Float32 the two sums add in different orders and can
    differ by rounding. *)
Theorem amount_conservation config w frame (cube : list (CubeRow F)) :
  scan_csv (input_file config) w = Ok frame →
  build_optimized_pipeline config w = Ok cube →
  (∃ groups : list (list F),
     total_amount <$> cube = foldr fadd fzero <$> groups ∧
     concat groups ≡ₚ parsed_amounts frame) ∧
  (ExactSum F →
   foldr fadd fzero (total_amount <$> cube)
   = foldr fadd fzero (parsed_amounts frame)).
Proof.
  intros Hs (frame' & rows & Hs' & Hrows%rows_related & ->)%pipeline_Ok.
  assert (frame' = frame) as -> by congruence.
  rewrite <- (amounts_of_rows _ _ Hrows). split.
  - apply amount_groups.
  - intros ?. apply amount_partition.
Qed.

(** Claim C5 (conservation of count).  When the pipeline produces a cube,
    the sum of [total_transactions] over its rows is the number of rows of
    the scanned frame. *)
Theorem count_conservation config w frame (cube : list (CubeRow F)) :
  scan_csv (input_file config) w = Ok frame →
  build_optimized_pipeline config w = Ok cube →
  sum_list (total_transactions <$> cube) = length frame.
Proof.
  intros Hs (frame' & rows & Hs' & Hrows & ->)%pipeline_Ok.
  assert (frame' = frame) as -> by congruence.
  rewrite count_partition. symmetry.
  by eapply Forall2_length, rows_related.
Qed.

(** Claim C10 (per-row measure invariant).  In every cube row
    [total_transactions] is at least 1, [error_count] lies between 0 and
    [total_transactions], and [unique_users] lies between 1 and
    [total_transactions]. *)
Theorem measure_bounds config w (cube : list (CubeRow F)) c :
  build_optimized_pipeline config w = Ok cube →
  c ∈ cube →
  (1 ≤ total_transactions c)%nat ∧
  (0 ≤ error_count c ≤ total_transactions c)%nat ∧
  (1 ≤ unique_users c ≤ total_transactions c)%nat.
Proof.
  intros (frame & rows & _ & _ & ->)%pipeline_Ok (row & Hrow & ->)%elem_of_cube.
  apply group_nonempty in Hrow. cbn.
  set (g := group (row_key row) rows) in *.
  unfold agg_len, agg_error_count, agg_n_unique.
  assert (1 ≤ length g)%nat.
  { destruct g; [by apply elem_of_nil in Hrow|simpl; lia]. }
  assert (1 ≤ length (remove_dups (row_User <$> g)))%nat.
  { assert (Hu : row_User row ∈ remove_dups (row_User <$> g)).
    { apply elem_of_remove_dups, list_elem_of_fmap. by exists row. }
    destruct (remove_dups (row_User <$> g)); [by apply elem_of_nil in Hu|simpl; lia]. }
  pose proof (length_filter (λ r : Row F, has_error r = true) g).
  pose proof (length_remove_dups (row_User <$> g)) as Hd.
  rewrite length_fmap in Hd. lia.
Qed.

(** Claim C9 (determinism).  Two runs over the same input file, whatever
    the order in which each run visits the rows, end the same way: either
    both fail with the same exception, or both produce a cube.  The two cubes
    then have the same keys with the same integer measures, up to row order;
    and in an addition without rounding, which is the claim's proviso on
    summation order, they hold the same rows with the same amount measures
    too. *)
Theorem pipeline_deterministic config w1 w2 frame1 frame2 :
  scan_csv (input_file config) w1 = Ok frame1 →
  scan_csv (input_file config) w2 = Ok frame2 →
  frame1 ≡ₚ frame2 →
  match build_optimized_pipeline config w1, build_optimized_pipeline config w2 with
  | Ok cube1, Ok cube2 =>
      counts <$> cube1 ≡ₚ counts <$> cube2 ∧ (ExactSum F → cube1 ≡ₚ cube2)
  | Err e1, Err e2 => e1 = e2
  | _, _ => False
  end.
Proof.
  intros Hs1 Hs2 Hp.
  assert (Herr : ∀ w frame e, scan_csv (input_file config) w = Ok frame →
            build_optimized_pipeline config w = Err e → e = InvalidOperationError).
  { intros w frame e Hs. unfold build_optimized_pipeline. rewrite Hs. cbn.
    destruct (mapR with_columns frame) eqn:E; cbn; [done|].
    intros [= <-]. by eapply mapR_with_columns_Err. }
  destruct (build_optimized_pipeline config w1) as [cube1|e1] eqn:E1,
           (build_optimized_pipeline config w2) as [cube2|e2] eqn:E2.
  - destruct (pipeline_Permutation _ _ _ _ _ _ Hs1 Hs2 Hp E1) as (cube2' & E & Hc).
    assert (cube2' = cube2) as -> by congruence. done.
  - destruct (pipeline_Permutation _ _ _ _ _ _ Hs1 Hs2 Hp E1) as (cube2' & E & Hc).
    congruence.
  - symmetry in Hp.
    destruct (pipeline_Permutation _ _ _ _ _ _ Hs2 Hs1 Hp E2) as (cube1' & E & Hc).
    congruence.
  - apply (Herr _ _ _ Hs1) in E1. apply (Herr _ _ _ Hs2) in E2. congruence.
Qed.


(** Claim C8 (fail-fast configuration validation).  A compression value
    other than ["zstd"], ["snappy"], ["lz4"] makes the constructor raise
    [ValidationError]; [main] then performs no step at all: nothing is
    logged, scanned or written before the exception leaves it. *)
Theorem invalid_compression_fails_fast args (w : World) s :
  arg_compression args = Some s →
  s ∉ ["zstd"; "snappy"; "lz4"] →
  ETLConfig_init args = Err ValidationError ∧
  main_with args w = ([], Uncaught ValidationError).
Proof.
  intros Ha Hs. rewrite !not_elem_of_cons in Hs. destruct Hs as (? & ? & ? & _).
  assert (E : ETLConfig_init args = Err ValidationError).
  { unfold ETLConfig_init, validate_compression. rewrite Ha.
    by rewrite !bool_decide_eq_false_2. }
  split; [done|]. unfold main_with. by rewrite E.
Qed.

(** Claim C3, as the code has it.  An Amount text that is not a number
    once ['$'] and [','] are removed makes the strict cast raise: the query
    fails with [InvalidOperationError], the streaming sink and then the
    fallback both fail, and the script logs the error, writes no cube and
    exits with status 1.  Only a null Amount cell is carried as a null
    amount. *)
Theorem unparsable_amount_aborts config w (frame : list RawRow) r s :
  files w (input_file config) = Some frame →
  r ∈ frame →
  Amount r = Some s →
  str_to_f32 (str_replace_all s) = None →
  build_optimized_pipeline config w = Err InvalidOperationError ∧
  (run config w).2 = SysExit 1 ∧
  written (run config w).1 = [] ∧
  logged ERROR (run config w).1 ∧
  (∀ r', Amount r' = None → expr_amount_clean r' = Ok None).
Proof.
  intros Hf Hr Ha Hp.
  assert (E : build_optimized_pipeline config w = Err InvalidOperationError).
  { unfold build_optimized_pipeline.
    apply scan_csv_Ok in Hf. rewrite Hf. cbn.
    destruct (mapR_Err with_columns frame r InvalidOperationError Hr) as [e He].
    { by eapply with_columns_bad_amount. }
    rewrite He. cbn. by apply mapR_with_columns_Err in He as ->. }
  destruct (run_failed _ _ _ E) as (Hw & Hx & _ & He).
  repeat split; try done.
  intros r' Hn. unfold expr_amount_clean. by rewrite Hn.
Qed.

(** Claim C2, as the code has it.  Every row of the scanned frame is
    counted in the cube row of its own key.  The [is_fraud] component of
    that key is true exactly when the flag text is one of the spellings of
    "yes" (any mix of upper and lower case), false for any other text, and
    null, not false, when the flag cell is null. *)
Theorem fraud_flag_classification config w (frame : list RawRow)
    (cube : list (CubeRow F)) r :
  scan_csv (input_file config) w = Ok frame →
  build_optimized_pipeline config w = Ok cube →
  r ∈ frame →
  ∃ c, c ∈ cube ∧
       r ∈ rows_of (cube_key c) frame ∧
       total_transactions c = length (rows_of (cube_key c) frame) ∧
       key_is_fraud (cube_key c) =
         match Is_Fraud r with
         | Some s => Some (bool_decide (s ∈ yes_spellings))
         | None => None
         end.
Proof.
  intros Hs (frame' & rows & Hs' & Hrows%rows_related & ->)%pipeline_Ok Hr.
  assert (frame' = frame) as -> by congruence.
  destruct (cube_row_of_raw _ _ _ Hrows Hr) as (c & Hc & Hk).
  exists c. split; [done|]. split; [|split].
  - apply list_elem_of_filter. by rewrite Hk.
  - destruct (cube_row_group _ _ _ Hrows Hc) as (g & Hg & _ & Hcg).
    rewrite (Forall2_length _ _ _ Hg).
    by rewrite Hcg at 1.
  - rewrite Hk. cbn. unfold expr_is_fraud.
    destruct (Is_Fraud r) as [fl|]; cbn; [|done].
    f_equal. apply bool_decide_ext, yes_ignoring_case.
Qed.

(** Claim C4, as the code has it.  [total_transactions] counts the rows of
    the group; [avg_amount] is [total_amount] divided by the number of
    rows of the group whose Amount cell is not null, and is null when
    there is no such row.  It is [total_amount / total_transactions] when
    no Amount cell of the group is null. *)
Theorem avg_amount_over_non_null config w (frame : list RawRow)
    (cube : list (CubeRow F)) c :
  scan_csv (input_file config) w = Ok frame →
  build_optimized_pipeline config w = Ok cube →
  c ∈ cube →
  total_transactions c = length (rows_of (cube_key c) frame) ∧
  avg_amount c =
    (if decide (length (with_amount (cube_key c) frame) = 0%nat) then None
     else Some (fdiv (total_amount c)
                  (f_of_count (length (with_amount (cube_key c) frame))))) ∧
  ((∀ r, r ∈ rows_of (cube_key c) frame → is_Some (Amount r)) →
   avg_amount c =
     Some (fdiv (total_amount c) (f_of_count (total_transactions c)))).
Proof.
  intros Hs (frame' & rows & Hs' & Hrows%rows_related & ->)%pipeline_Ok Hc.
  assert (frame' = frame) as -> by congruence.
  destruct (cube_row_group _ _ _ Hrows Hc) as (g & Hg & Hne & Hcg).
  pose proof (Forall2_length _ _ _ Hg) as Hlen.
  pose proof (non_null_amounts _ _ Hg) as Hnn.
  assert (Ht : total_transactions c = length g) by by rewrite Hcg.
  assert (Hsum : total_amount c = fsum (drop_nulls (amount_clean <$> g)))
    by by rewrite Hcg.
  assert (Havg : avg_amount c = agg_mean g) by by rewrite Hcg.
  assert (Hmean : avg_amount c =
    (if decide (length (with_amount (cube_key c) frame) = 0%nat) then None
     else Some (fdiv (total_amount c)
                  (f_of_count (length (with_amount (cube_key c) frame)))))).
  { unfold with_amount. rewrite <- Hnn, Havg, Hsum. unfold agg_mean.
    by destruct (drop_nulls (amount_clean <$> g)). }
  split; [congruence|]. split; [done|].
  intros Hall. rewrite Hmean.
  assert (with_amount (cube_key c) frame = rows_of (cube_key c) frame) as ->.
  { by apply filter_all. }
  rewrite Ht, Hlen.
  destruct (decide (length g = 0%nat)) as [Hz|_]; [|done].
  by destruct g.
Qed.

(** Claim C7, as the code has it.  The composite date is defined by the
    plan but is not a key or a measure of the cube: changing the Day cells
    of a frame in any way changes nothing in the outcome of the pipeline,
    so a row whose year, month and day are not a calendar date is
    aggregated under its year and month like any other row.  No date is
    wrapped: [pl.date] yields a date only from components that form a
    calendar date, and that date has exactly those components. *)
Theorem cube_independent_of_day config w w' (frame frame' : list RawRow) :
  files w (input_file config) = Some frame →
  files w' (input_file config) = Some frame' →
  Forall2 (λ r r', ∃ d, r' = set_Day d r) frame frame' →
  build_optimized_pipeline config w' = build_optimized_pipeline config w ∧
  (∀ r dt, expr_date r = Ok (Some dt) →
     valid_date (date_year dt) (date_month dt) (date_day dt) = true ∧
     Year r = Some (date_year dt) ∧ Month r = Some (date_month dt) ∧
     Day r = Some (date_day dt)).
Proof.
  intros Hf Hf' Hrel. split.
  - unfold build_optimized_pipeline.
    apply scan_csv_Ok in Hf, Hf'. rewrite Hf, Hf'. cbn.
    assert (mapR with_columns frame' = mapR with_columns frame) as ->; [|done].
    clear Hf Hf'. induction Hrel as [|r r' l l' [d ->] _ IH]; [done|].
    simpl. rewrite IH. reflexivity.
  - intros r dt. unfold expr_date, expr_Day.
    destruct (cast_int Int16 (Year r)) as [y|] eqn:Ey; [|done].
    destruct (cast_int Int8 (Month r)) as [m|] eqn:Em; [|done].
    destruct (cast_int Int8 (Day r)) as [d|] eqn:Ed; [|done].
    apply cast_int_Ok in Ey, Em, Ed. subst. cbn. unfold pl_date.
    destruct (Year r) as [y|], (Month r) as [m|], (Day r) as [d|]; try done.
    destruct (valid_date y m d) eqn:Ev; [|done].
    intros [= <-]. by cbn.
Qed.

End Stages.

(** ** Exact rationals are an instance *)

Global Instance Q_ExactSum : ExactSum Q.
Proof.
  split.
  - intros [a b] [c d] [e f]. cbn. unfold Qplus; cbn.
    f_equal; [|by rewrite Pos.mul_assoc].
    rewrite !Pos2Z.inj_mul. ring.
  - intros [a b] [c d]. cbn. unfold Qplus; cbn.
    f_equal; [ring|apply Pos.mul_comm].
  - intros [a b]. cbn. unfold Qplus; cbn. f_equal. ring.
Qed.

Lemma ETLConfig_init_default : ETLConfig_init no_args = Ok default_config.
Proof. reflexivity. Qed.

(** The literal example of the specification: two CA rows of 10 and 20 and
    one NY row of 5 give a CA group (30, 2 transactions) and an NY group
    (5, 1 transaction). *)
Example literal_three_rows :
  ∃ ca ny,
    build_optimized_pipeline (F:=Q) default_config (sample_world sample_frame true)
      = Ok [ca; ny] ∧
    key_Merchant_State (cube_key ca) = Some "CA" ∧
    (total_amount ca == 30)%Q ∧ total_transactions ca = 2%nat ∧
    key_Merchant_State (cube_key ny) = Some "NY" ∧
    (total_amount ny == 5)%Q ∧ total_transactions ny = 1%nat.
Proof. do 2 eexists. split; [vm_compute; reflexivity|]. by vm_compute. Qed.

(** ** The properties at concrete inputs *)

Lemma amount_conservation_witness :
  ∃ cube,
    build_optimized_pipeline (F:=Q) default_config (sample_world sample_frame true)
      = Ok cube ∧
    foldr fadd fzero (total_amount <$> cube)
    = foldr fadd fzero (parsed_amounts sample_frame).
Proof.
  eexists. split; [vm_compute; reflexivity|].
  apply (amount_conservation (F:=Q) default_config (sample_world sample_frame true));
    [vm_compute; reflexivity|vm_compute; reflexivity|apply Q_ExactSum].
Defined.

Lemma count_conservation_witness :
  ∃ cube,
    build_optimized_pipeline (F:=Q) default_config (sample_world sample_frame true)
      = Ok cube ∧
    sum_list (total_transactions <$> cube) = length sample_frame.
Proof.
  eexists. split; [vm_compute; reflexivity|].
  apply (count_conservation (F:=Q) default_config (sample_world sample_frame true));
    vm_compute; reflexivity.
Defined.

Lemma measure_bounds_witness :
  ∃ cube c,
    build_optimized_pipeline (F:=Q) default_config (sample_world sample_frame true)
      = Ok cube ∧ c ∈ cube ∧
    (1 ≤ total_transactions c)%nat ∧
    (0 ≤ error_count c ≤ total_transactions c)%nat ∧
    (1 ≤ unique_users c ≤ total_transactions c)%nat.
Proof.
  do 2 eexists. split; [vm_compute; reflexivity|].
  split; [apply list_elem_of_here|].
  eapply (measure_bounds (F:=Q) default_config (sample_world sample_frame true)).
  - vm_compute; reflexivity.
  - apply list_elem_of_here.
Defined.

Lemma pipeline_deterministic_witness :
  sample_frame ≡ₚ reverse sample_frame ∧
  match
    build_optimized_pipeline (F:=Q) default_config (sample_world sample_frame true),
    build_optimized_pipeline (F:=Q) default_config
      (sample_world (reverse sample_frame) false)
  with
  | Ok cube1, Ok cube2 =>
      counts <$> cube1 ≡ₚ counts <$> cube2 ∧ (ExactSum Q → cube1 ≡ₚ cube2)
  | Err e1, Err e2 => e1 = e2
  | _, _ => False
  end.
Proof.
  assert (Hp : sample_frame ≡ₚ reverse sample_frame)
    by (symmetry; apply reverse_Permutation).
  split; [exact Hp|].
  apply (pipeline_deterministic (F:=Q) default_config
           (sample_world sample_frame true)
           (sample_world (reverse sample_frame) false)
           sample_frame (reverse sample_frame));
    [reflexivity|reflexivity|exact Hp].
Defined.


Lemma invalid_compression_fails_fast_witness :
  ETLConfig_init gzip_args = Err ValidationError ∧
  main_with (F:=Q) gzip_args (sample_world sample_frame true)
    = ([], Uncaught ValidationError).
Proof.
  apply (invalid_compression_fails_fast (F:=Q) gzip_args
           (sample_world sample_frame true) "gzip").
  - reflexivity.
  - rewrite !not_elem_of_cons. repeat split; try discriminate.
    apply not_elem_of_nil.
Defined.

Lemma unparsable_amount_aborts_witness :
  build_optimized_pipeline (F:=Q) default_config (sample_world bad_amount_frame true)
    = Err InvalidOperationError ∧
  (run (F:=Q) default_config (sample_world bad_amount_frame true)).2 = SysExit 1.
Proof.
  destruct (unparsable_amount_aborts (F:=Q) default_config
              (sample_world bad_amount_frame true) bad_amount_frame
              (tx 2 "CA" "$12.5x" "No") "$12.5x")
    as (Hp & Hx & _);
    [reflexivity|apply list_elem_of_further, list_elem_of_here
    |reflexivity|reflexivity|].
  by split.
Defined.

Lemma fraud_flag_classification_witness :
  ∃ cube,
    build_optimized_pipeline (F:=Q) default_config (sample_world sample_frame true)
      = Ok cube ∧
    ∃ c, c ∈ cube ∧
         tx 1 "CA" "$10.00" "No" ∈ rows_of (cube_key c) sample_frame ∧
         total_transactions c = length (rows_of (cube_key c) sample_frame) ∧
         key_is_fraud (cube_key c) = Some (bool_decide ("No" ∈ yes_spellings)).
Proof.
  eexists. split; [vm_compute; reflexivity|].
  apply (fraud_flag_classification (F:=Q) default_config
           (sample_world sample_frame true) sample_frame);
    [reflexivity|vm_compute; reflexivity|apply list_elem_of_here].
Defined.

Lemma avg_amount_over_non_null_witness :
  ∃ cube c,
    build_optimized_pipeline (F:=Q) default_config
      (sample_world null_amount_frame true) = Ok cube ∧ c ∈ cube ∧
    total_transactions c = length (rows_of (cube_key c) null_amount_frame) ∧
    avg_amount c =
      (if decide (length (with_amount (cube_key c) null_amount_frame) = 0%nat)
       then None
       else Some (fdiv (total_amount c)
                    (f_of_count
                       (length (with_amount (cube_key c) null_amount_frame))))).
Proof.
  do 2 eexists. split; [vm_compute; reflexivity|].
  split; [apply list_elem_of_here|].
  edestruct (avg_amount_over_non_null (F:=Q) default_config
               (sample_world null_amount_frame true) null_amount_frame)
    as (Hn & Ha & _);
    [reflexivity|vm_compute; reflexivity|apply list_elem_of_here|].
  split; [exact Hn|exact Ha].
Defined.

Lemma cube_independent_of_day_witness :
  build_optimized_pipeline (F:=Q) default_config
    (sample_world (set_Day (Some 28) <$> feb31_frame) true)
  = build_optimized_pipeline (F:=Q) default_config (sample_world feb31_frame true).
Proof.
  apply (cube_independent_of_day (F:=Q) default_config
           (sample_world feb31_frame true)
           (sample_world (set_Day (Some 28) <$> feb31_frame) true)
           feb31_frame (set_Day (Some 28) <$> feb31_frame));
    [reflexivity|reflexivity|].
  repeat constructor. by exists (Some 28).
Defined.

(** ** Where the code departs from the specification's wording *)

(** Claim C2 does not hold as worded for a null flag.  The one row of
    [null_flag_frame] has a null "Is Fraud?" cell; it is counted in a cube
    row whose [is_fraud] is null, not false. *)
Lemma null_flag_is_not_false :
  Is_Fraud <$> null_flag_frame = [None] ∧
  ∃ c,
    build_optimized_pipeline (F:=Q) default_config
      (sample_world null_flag_frame true) = Ok [c] ∧
    total_transactions c = 1%nat ∧
    key_is_fraud (cube_key c) = None ∧
    key_is_fraud (cube_key c) ≠ Some false.
Proof.
  split; [reflexivity|]. eexists. split; [vm_compute; reflexivity|].
  repeat split. discriminate.
Qed.

(** Claim C3 does not hold as worded.  In [bad_amount_frame] the second
    Amount is ["$12.5x"], which is not a number once the ['$'] is removed;
    the run does not complete: no cube is written and the script exits with
    status 1. *)
Lemma bad_amount_is_fatal :
  Amount <$> bad_amount_frame = [Some "$10.00"; Some "$12.5x"] ∧
  str_to_f32 (F:=Q) (str_replace_all "$12.5x") = None ∧
  build_optimized_pipeline (F:=Q) default_config
    (sample_world bad_amount_frame true) = Err InvalidOperationError ∧
  (main (F:=Q) (sample_world bad_amount_frame true)).2 = SysExit 1 ∧
  written (main (F:=Q) (sample_world bad_amount_frame true)).1 = [] ∧
  (main (F:=Q) (sample_world bad_amount_frame false)).2 = SysExit 1 ∧
  written (main (F:=Q) (sample_world bad_amount_frame false)).1 = [].
Proof. by vm_compute. Qed.

(** Claim C4 does not hold as worded when an Amount cell is null.  The group
    of [null_amount_frame] has two rows, one with amount 10 and one with a
    null amount: [total_amount] is 10, [total_transactions] is 2 and
    [avg_amount] is 10, which is 5 away from 10 / 2. *)
Lemma avg_is_not_total_over_count :
  ∃ c a,
    build_optimized_pipeline (F:=Q) default_config
      (sample_world null_amount_frame true) = Ok [c] ∧
    total_transactions c = 2%nat ∧
    avg_amount c = Some a ∧
    (a - fdiv (total_amount c) (f_of_count (total_transactions c)) == 5)%Q ∧
    ¬ (a == fdiv (total_amount c) (f_of_count (total_transactions c)))%Q.
Proof.
  do 2 eexists. split; [vm_compute; reflexivity|].
  split; [reflexivity|]. split; [vm_compute; reflexivity|].
  split; by vm_compute.
Qed.

(** Claim C7 does not hold as worded.  The row of [feb31_frame] is dated
    31 February 2021, which is not a calendar date, and the date expression
    has no date for it.  The row is not failed for that: the run succeeds
    and the row is counted in the group of year 2021, month 2. *)
Lemma feb31_row_is_counted :
  valid_date 2021 2 31 = false ∧
  expr_date <$> feb31_frame = [Ok None] ∧
  ∃ c,
    build_optimized_pipeline (F:=Q) default_config
      (sample_world feb31_frame true) = Ok [c] ∧
    key_Year (cube_key c) = Some 2021 ∧ key_Month (cube_key c) = Some 2 ∧
    total_transactions c = 1%nat ∧
    (main (F:=Q) (sample_world feb31_frame true)).2 = Returned.
Proof.
  split; [reflexivity|]. split; [reflexivity|].
  eexists. split; [vm_compute; reflexivity|].
  by vm_compute.
Qed.

(** Binary32 addition rounds, so it is not associative. *)
Example b32_not_exact : ¬ ExactSum spec_float.
Proof.
  intros [Hassoc _ _].
  specialize (Hassoc (b32_of_Z 16777216) (b32_of_Z 1) (b32_of_Z 1)).
  vm_compute in Hassoc. discriminate.
Qed.

(** Claim C1 does not hold as worded in Float32.  In [rounding_frame] the
    amounts 1, 16777216, 1 parse without rounding.  The cube holds 16777216
    for CA and 2 for NY, which add up to 16777218; the amounts of the raw
    rows, added in the order of the file, give 16777216, since 16777217 is
    not a binary32 number. *)
Lemma b32_conservation_fails :
  parsed_amounts (F:=spec_float) rounding_frame
    = [b32_of_Z 1; b32_of_Z 16777216; b32_of_Z 1] ∧
  ∃ cube,
    build_optimized_pipeline (F:=spec_float) default_config
      (sample_world rounding_frame true) = Ok cube ∧
    fsum (total_amount <$> cube) = b32_of_Z 16777218 ∧
    fsum (parsed_amounts rounding_frame) = b32_of_Z 16777216 ∧
    fold_left fadd (parsed_amounts rounding_frame) fzero = b32_of_Z 16777216 ∧
    SFeqb (fsum (total_amount <$> cube)) (fsum (parsed_amounts rounding_frame))
      = false.
Proof.
  split; [by vm_compute|].
  eexists. split; [vm_compute; reflexivity|]. by vm_compute.
Qed.


(** * Further properties of the pipeline *)

Section Further.
Context {F : Type} `{Float32 F}.

(** ** Which inputs the pipeline accepts *)

Lemma cast_int_fits t v : fits t v → cast_int t v = Ok v.
Proof.
  destruct v as [z|]; simpl; [|done]. intros Hz. by rewrite bool_decide_eq_true_2.
Qed.

Lemma cast_int_Ok_fits t v v' : cast_int t v = Ok v' → fits t v.
Proof.
  destruct v as [z|]; simpl; [|done]. case_bool_decide; [done|congruence].
Qed.

Lemma with_columns_row_ok r :
  row_ok r = true ↔ ∃ row, with_columns r = Ok row.
Proof.
  unfold row_ok, with_columns, expr_amount_clean. split.
  - rewrite !andb_true_iff, !bool_decide_eq_true.
    intros ((((Hy & Hm) & Hc) & Hu) & Ha).
    rewrite !cast_int_fits by done. cbn.
    destruct (Amount r) as [s|]; cbn; [|by eexists].
    apply bool_decide_eq_true in Ha as [x ->]. by eexists.
  - intros [row E].
    destruct (cast_int Int16 (Year r)) eqn:Ey; [|done].
    destruct (cast_int Int8 (Month r)) eqn:Em; [|done].
    destruct (cast_int Int16 (MCC r)) eqn:Ec; [|done].
    destruct (cast_int Int32 (User r)) eqn:Eu; [|done].
    apply cast_int_Ok_fits in Ey, Em, Ec, Eu.
    rewrite !andb_true_iff, !bool_decide_eq_true. repeat split; try done.
    destruct (Amount r) as [s|]; [|done]. cbn in E.
    apply bool_decide_eq_true. destruct (str_to_f32 (str_replace_all s)); [by eexists|done].
Qed.

Lemma mapR_all_Ok {A B} (f : A → result B) (l : list A) :
  Forall (λ a, ∃ b, f a = Ok b) l → ∃ l', mapR f l = Ok l'.
Proof.
  induction 1 as [|a l [b Hb] _ [l' IH]]; [by exists []|].
  exists (b :: l'). simpl. rewrite Hb. cbn. by rewrite IH.
Qed.

(** X1.  When the scan delivers a frame whose text columns are read as text,
    the pipeline fails with [InvalidOperationError] exactly when some row has
    a year, month, MCC or user outside the integer type it is cast to, or an
    amount text that is not a number once its ['$'] and [','] are removed;
    on every other such frame it yields a cube.  Nulls in these columns are
    accepted. *)
Theorem pipeline_succeeds_iff config w (frame : list RawRow) :
  files w (input_file config) = Some frame →
  text_columns frame = true →
  if forallb row_ok frame
  then ∃ cube, build_optimized_pipeline config w = Ok cube
  else build_optimized_pipeline config w = Err InvalidOperationError.
Proof.
  intros Hf _. unfold build_optimized_pipeline, scan_csv. rewrite Hf. cbn.
  destruct (forallb row_ok frame) eqn:Eall.
  - destruct (mapR_all_Ok with_columns frame) as [rows ->]; [|by eexists].
    apply Forall_forall. intros r Hr.
    apply with_columns_row_ok.
    rewrite forallb_forall in Eall. by apply Eall, list_elem_of_In.
  - destruct (mapR with_columns frame) as [rows|e] eqn:E; cbn.
    + apply rows_related in E. assert (forallb row_ok frame = true); [|congruence].
      apply forallb_forall. intros r Hr%list_elem_of_In.
      apply list_elem_of_lookup in Hr as [i Hi].
      destruct (Forall2_lookup_l _ _ _ _ _ E Hi) as (row & _ & Hrow).
      apply with_columns_row_ok. by exists row.
    + by apply mapR_with_columns_Err in E as ->.
Qed.

(** ** Shape of the cube *)

Lemma cube_keys rows : cube_key <$> (agg <$> group_by rows) = remove_dups (row_key <$> rows).
Proof.
  unfold group_by. rewrite <- !list_fmap_compose.
  rewrite <- (list_fmap_id (remove_dups (row_key <$> rows))) at 2.
  by apply list_fmap_ext.
Qed.

Lemma raw_keys frame rows :
  Forall2 (λ r row, with_columns r = Ok row) frame rows →
  row_key <$> rows = raw_key <$> frame.
Proof.
  induction 1 as [|r row frame rows Hr _ IH]; [done|]. csimpl.
  apply with_columns_Ok in Hr as (-> & _). by rewrite IH.
Qed.

(** X2.  The cube has one row per key that occurs in the frame: no two cube rows
    share a key, the keys of the cube are exactly the keys of the raw rows,
    and the cube has at most as many rows as the frame, none exactly when
    the frame is empty. *)
Theorem cube_one_row_per_key config w (frame : list RawRow)
    (cube : list (CubeRow F)) :
  scan_csv (input_file config) w = Ok frame →
  build_optimized_pipeline config w = Ok cube →
  NoDup (cube_key <$> cube) ∧
  (∀ k, k ∈ cube_key <$> cube ↔ k ∈ raw_key <$> frame) ∧
  (length cube ≤ length frame)%nat ∧
  (cube = [] ↔ frame = []).
Proof.
  intros Hs (frame' & rows & Hs' & Hrows%rows_related & ->)%pipeline_Ok.
  assert (frame' = frame) as -> by congruence.
  pose proof (cube_keys rows) as Hk. rewrite (raw_keys _ _ Hrows) in Hk.
  split; [|split; [|split]].
  - rewrite Hk. apply NoDup_remove_dups.
  - intros k. rewrite Hk. apply elem_of_remove_dups.
  - rewrite <- (length_fmap cube_key), Hk.
    etrans; [apply length_remove_dups|]. by rewrite length_fmap.
  - split.
    + intros E. rewrite E in Hk. destruct frame as [|r frame]; [done|].
      assert (raw_key r ∈ remove_dups (raw_key <$> r :: frame)) as Hin
        by (apply elem_of_remove_dups; left).
      rewrite <- Hk in Hin. by apply elem_of_nil in Hin.
    + intros ->. by apply Forall2_nil_inv_l in Hrows as ->.
Qed.

(** X3.  Every key of the cube went through the downcasts: its year and its MCC
    fit 16 bits and its month fits 8 bits, unless null. *)
Theorem cube_keys_fit config w (cube : list (CubeRow F)) c :
  build_optimized_pipeline config w = Ok cube →
  c ∈ cube →
  fits Int16 (key_Year (cube_key c)) ∧
  fits Int8 (key_Month (cube_key c)) ∧
  fits Int16 (key_MCC (cube_key c)).
Proof.
  intros (frame & rows & _ & Hrows%rows_related & ->)%pipeline_Ok
         (row & [i Hi]%list_elem_of_lookup & ->)%elem_of_cube.
  destruct (Forall2_lookup_r _ _ _ _ _ Hrows Hi) as (r & _ & Hr). cbn.
  unfold with_columns in Hr.
  destruct (cast_int Int16 (Year r)) as [y|] eqn:Ey; [|done].
  destruct (cast_int Int8 (Month r)) as [m|] eqn:Em; [|done].
  destruct (cast_int Int16 (MCC r)) as [mc|] eqn:Ec; [|done].
  destruct (cast_int Int32 (User r)) as [u|] eqn:Eu; [|done].
  destruct (expr_amount_clean r) as [a|]; [|done].
  cbn in Hr. injection Hr as <-. cbn.
  pose proof (cast_int_Ok _ _ _ Ey). pose proof (cast_int_Ok _ _ _ Em).
  pose proof (cast_int_Ok _ _ _ Ec). subst.
  repeat split; eapply cast_int_Ok_fits; eassumption.
Qed.

(** ** The other measures *)

Lemma nat_partition (m : Row F → nat) (rows : list (Row F)) :
  sum_list ((λ k, sum_list (m <$> group k rows)) <$> remove_dups (row_key <$> rows))
  = sum_list (m <$> rows).
Proof.
  rewrite !sum_list_foldr.
  rewrite <- (big_partition Nat.add 0%nat Nat.add_assoc Nat.add_comm
                Nat.add_0_l (@row_key F) m rows (remove_dups (row_key <$> rows))).
  - reflexivity.
  - apply NoDup_remove_dups.
  - intros r Hr. apply elem_of_remove_dups, list_elem_of_fmap. by exists r.
Qed.

Lemma length_filter_sum {A} (P : A → Prop) `{!∀ a, Decision (P a)} (l : list A) :
  length (filter P l) = sum_list ((λ a, if decide (P a) then 1%nat else 0%nat) <$> l).
Proof.
  induction l as [|a l IH]; [done|].
  rewrite filter_cons. csimpl. destruct (decide (P a)); simpl; lia.
Qed.

(** X4.  Conservation of errors: the [error_count] measures add up to the number
    of raw rows whose "Errors?" cell is not null. *)
Theorem error_count_conservation config w (frame : list RawRow)
    (cube : list (CubeRow F)) :
  scan_csv (input_file config) w = Ok frame →
  build_optimized_pipeline config w = Ok cube →
  sum_list (error_count <$> cube)
  = length (filter (λ r, is_Some (Errors r)) frame).
Proof.
  intros Hs (frame' & rows & Hs' & Hrows%rows_related & ->)%pipeline_Ok.
  assert (frame' = frame) as -> by congruence.
  trans (length (filter (λ row : Row F, has_error row = true) rows)).
  - rewrite length_filter_sum, <- nat_partition.
    unfold group_by. rewrite <- !list_fmap_compose. f_equal.
    apply list_fmap_ext; intros _ k _. cbn. unfold agg_error_count.
    apply length_filter_sum.
  - symmetry. apply (Forall2_length (λ r (row : Row F), with_columns r = Ok row)).
    apply Forall2_filter_rel; [|done].
    intros r row (_ & _ & _ & ->)%with_columns_Ok. unfold expr_has_error.
    destruct (Errors r); split; done.
Qed.

Lemma raw_users l g :
  Forall2 (λ r (row : Row F), with_columns r = Ok row) l g →
  row_User <$> g = User <$> l.
Proof.
  induction 1 as [|r row l g Hr _ IH]; [done|]. csimpl.
  apply with_columns_Ok in Hr as (_ & -> & _). by rewrite IH.
Qed.

Lemma length_remove_dups_app `{EqDecision A} (l1 l2 : list A) :
  (length (remove_dups (l1 ++ l2))
   ≤ length (remove_dups l1) + length (remove_dups l2))%nat.
Proof.
  induction l1 as [|x l1 IH]; simpl; [lia|].
  destruct (decide_rel elem_of x (l1 ++ l2)) as [Hin|Hin],
           (decide_rel elem_of x l1) as [Hin1|Hin1]; simpl; try lia.
  destruct Hin. apply elem_of_app. by left.
Qed.

Lemma length_remove_dups_concat `{EqDecision A} (ls : list (list A)) :
  (length (remove_dups (concat ls)) ≤ sum_list ((λ l, length (remove_dups l)) <$> ls))%nat.
Proof.
  induction ls as [|l ls IH]; csimpl; [done|].
  etrans; [apply length_remove_dups_app|]. lia.
Qed.

(** X5.  [unique_users] counts the distinct users of the group, null being one
    of them.  It does not add up across cube rows: a user seen in several
    groups is counted in each, so the sum over the cube is at least the
    number of distinct users of the frame, and is not equal to it in
    general. *)
Theorem unique_users_per_group config w (frame : list RawRow)
    (cube : list (CubeRow F)) :
  scan_csv (input_file config) w = Ok frame →
  build_optimized_pipeline config w = Ok cube →
  (∀ c, c ∈ cube →
     unique_users c = length (remove_dups (User <$> rows_of (cube_key c) frame))) ∧
  (length (remove_dups (User <$> frame)) ≤ sum_list (unique_users <$> cube))%nat.
Proof.
  intros Hs (frame' & rows & Hs' & Hrows%rows_related & ->)%pipeline_Ok.
  assert (frame' = frame) as -> by congruence. split.
  - intros c Hc.
    destruct (cube_row_group _ _ _ Hrows Hc) as (g & Hg & _ & Hcg).
    rewrite Hcg at 1. cbn. unfold agg_n_unique. by rewrite (raw_users _ _ Hg).
  - rewrite <- (raw_users _ _ Hrows).
    set (ks := remove_dups (row_key <$> rows)).
    assert (Hp : row_User <$> rows
                 ≡ₚ concat ((λ k, row_User <$> group k rows) <$> ks)).
    { trans (row_User <$> concat ((λ k, group k rows) <$> ks)).
      - apply fmap_Permutation. symmetry.
        apply concat_groups; [apply NoDup_remove_dups|].
        intros r Hr. apply elem_of_remove_dups, list_elem_of_fmap. by exists r.
      - apply reflexive_eq. induction ks as [|k ks' IH]; [done|].
        csimpl. by rewrite fmap_app, IH. }
    rewrite (Permutation_length (remove_dups_Permutation _ _ Hp)).
    etrans; [apply length_remove_dups_concat|].
    apply reflexive_eq. unfold group_by. subst ks.
    rewrite <- !list_fmap_compose. f_equal.
Qed.

(** ** What the cube does not depend on *)

Lemma with_columns_consumed r r' :
  consumed r = consumed r' → with_columns r' = with_columns r.
Proof.
  unfold consumed, with_columns, expr_amount_clean.
  intros [= -> -> -> -> -> -> -> -> ->]. done.
Qed.

(** X6.  Among the frames whose text columns are read as text, the outcome of
    the pipeline is a function of nine things per raw row: user, year,
    month, the amount text without its ['$'] and [','], transaction type,
    merchant state, MCC, whether there is an error text, and whether the
    flag reads "yes".  Card, merchant city, day, the wording of the error,
    the case of the flag and the placement of currency marks change nothing,
    neither in the cube nor in whether the pipeline fails. *)
Theorem cube_reads_consumed_columns config w w' (frame frame' : list RawRow) :
  files w (input_file config) = Some frame →
  files w' (input_file config) = Some frame' →
  text_columns frame = true →
  text_columns frame' = true →
  Forall2 (λ r r', consumed r = consumed r') frame frame' →
  build_optimized_pipeline config w' = build_optimized_pipeline config w.
Proof.
  intros Hf Hf' _ _ Hrel. unfold build_optimized_pipeline.
  apply scan_csv_Ok in Hf, Hf'. rewrite Hf, Hf'. cbn.
  assert (mapR with_columns frame' = mapR with_columns frame) as ->; [|done].
  clear Hf Hf'. induction Hrel as [|r r' l l' Hc _ IH]; [done|].
  simpl. by rewrite IH, (with_columns_consumed _ _ Hc).
Qed.

(** ** What the script does with the outcome *)

Local Ltac trace_cases Hin :=
  cbn in Hin;
  repeat (apply elem_of_cons in Hin as [Hin|Hin];
          [first [discriminate | by injection Hin as -> -> _]|]);
  by apply elem_of_nil in Hin.

(** X7.  The script writes a cube exactly when the pipeline succeeds: then it
    writes that cube once, logs no error and returns.  When the pipeline
    fails, for whatever reason, nothing is written, an error is logged and
    the exit status is 1.  Whatever is written goes to the configured output
    path with the configured compression.  The summaries directory is
    created in every case.  With the default configuration no exception
    leaves [main]. *)
Theorem run_outcome config w :
  match build_optimized_pipeline config w with
  | Ok cube =>
      (run config w).2 = Returned ∧ written (run config w).1 = [cube] ∧
      ¬ logged ERROR (run config w).1
  | Err _ =>
      (run config w).2 = SysExit 1 ∧ written (run config w).1 = [] ∧
      logged ERROR (run config w).1
  end ∧
  (∀ p c (cube : list (CubeRow F)),
     WriteParquet p c cube ∈ (run config w).1 →
     p = output_cube config ∧ c = compression config) ∧
  MkDir (output_summaries_dir config) ∈ (run config w).1 ∧
  main w = run default_config w.
Proof.
  split; [|split; [|split]].
  - destruct (build_optimized_pipeline config w) as [cube|e] eqn:E.
    + destruct (streaming_sink_supported w) eqn:Es.
      * by destruct (run_streamed _ _ _ Es E) as (? & ? & _ & ?).
      * by destruct (run_fell_back _ _ _ Es E) as (? & ? & _ & ?).
    + by destruct (run_failed _ _ _ E) as (? & ? & _ & ?).
  - intros p c cube. unfold run, sink_parquet, collect.
    destruct (build_optimized_pipeline config w) as [cube'|e],
             (streaming_sink_supported w); intros Hin; trace_cases Hin.
  - unfold run, sink_parquet, collect.
    destruct (build_optimized_pipeline config w) as [cube'|e],
             (streaming_sink_supported w); cbn; rewrite !elem_of_cons; tauto.
  - reflexivity.
Qed.

(** ** Cleaning of the amount text *)

Lemma str_replace_all_app (a b : string) :
  str_replace_all (a +:+ b) = str_replace_all a +:+ str_replace_all b.
Proof.
  induction a as [|c a IH]; [done|]. simpl.
  destruct (is_currency_mark c); simpl; by rewrite IH.
Qed.

(** X8.  Cleaning removes every ['$'] and [','] wherever it stands and nothing
    else: it distributes over concatenation, a mark inserted anywhere in
    the text changes nothing, no mark is left in the result, a text without
    marks is returned as it is, and cleaning twice is cleaning once. *)
Theorem str_replace_all_marks :
  (∀ a b, str_replace_all (a +:+ b) = str_replace_all a +:+ str_replace_all b) ∧
  (∀ a b, str_replace_all (a +:+ "," +:+ b) = str_replace_all (a +:+ b) ∧
          str_replace_all (a +:+ "$" +:+ b) = str_replace_all (a +:+ b)) ∧
  (∀ s c, c ∈ String.list_ascii_of_string (str_replace_all s) →
          c ≠ "$"%char ∧ c ≠ ","%char ∧ c ∈ String.list_ascii_of_string s) ∧
  (∀ s, "$"%char ∉ String.list_ascii_of_string s →
        ","%char ∉ String.list_ascii_of_string s → str_replace_all s = s) ∧
  (∀ s, str_replace_all (str_replace_all s) = str_replace_all s).
Proof.
  assert (Hmark : ∀ c, is_currency_mark c = true ↔ c = "$"%char ∨ c = ","%char).
  { intros c. unfold is_currency_mark.
    rewrite orb_true_iff, !bool_decide_eq_true. done. }
  assert (Hout : ∀ s c, c ∈ String.list_ascii_of_string (str_replace_all s) →
            c ≠ "$"%char ∧ c ≠ ","%char ∧ c ∈ String.list_ascii_of_string s).
  { induction s as [|c0 s IH]; intros c; simpl; [by intros ?%elem_of_nil|].
    destruct (is_currency_mark c0) eqn:E; simpl.
    - intros (? & ? & ?)%IH. repeat split; try done. by right.
    - intros [->|Hin]%elem_of_cons.
      + repeat split; [| |by left]; intros Heq; rewrite Heq in E; done.
      + apply IH in Hin as (? & ? & ?). repeat split; try done. by right. }
  assert (Hid : ∀ s, "$"%char ∉ String.list_ascii_of_string s →
            ","%char ∉ String.list_ascii_of_string s → str_replace_all s = s).
  { induction s as [|c0 s IH]; simpl; [done|].
    intros [? ?]%not_elem_of_cons [? ?]%not_elem_of_cons.
    destruct (is_currency_mark c0) eqn:E.
    - apply Hmark in E as [->| ->]; done.
    - by rewrite IH. }
  split; [apply str_replace_all_app|]. split; [|split; [done|split; [done|]]].
  - intros a b. by rewrite !str_replace_all_app.
  - intros s. apply Hid; intros Hin; by apply Hout in Hin as (? & ? & _).
Qed.

End Further.

(** * Properties of the dashboard *)

Section BigSumFilter.
Context {M : Type} (op : M → M → M) (e : M).
Hypothesis op_assoc : ∀ x y z, op x (op y z) = op (op x y) z.
Hypothesis op_comm : ∀ x y, op x y = op y x.
Hypothesis op_id : ∀ x, op e x = x.

Local Abbreviation big := (foldr op e).

(** Summing the groups of the selected keys is summing the selected rows. *)
Lemma big_partition_filter {A K} `{EqDecision K} (key : A → K) (m : A → M)
    (P : K → Prop) `{!∀ k, Decision (P k)} (rows : list A) (ks : list K) :
  NoDup ks → (∀ r, r ∈ rows → key r ∈ ks) →
  big ((λ k, big (m <$> filter (λ r, key r = k) rows)) <$> filter P ks)
  = big (m <$> filter (λ r, P (key r)) rows).
Proof.
  intros Hnd Hcov.
  rewrite <- (big_partition op e op_assoc op_comm op_id key m
                (filter (λ r, P (key r)) rows) (filter P ks)).
  - f_equal. apply list_fmap_ext. intros i k Hk.
    assert (P k) as HP.
    { assert (k ∈ filter P ks) as Hin by (apply list_elem_of_lookup; by exists i).
      by apply list_elem_of_filter in Hin as [? _]. }
    f_equal. f_equal. rewrite list_filter_filter. apply list_filter_iff.
    intros r. split; intros Hr; first [tauto | split; [done|by rewrite Hr]].
  - by apply NoDup_filter.
  - intros r [HP Hr]%list_elem_of_filter. apply list_elem_of_filter. auto.
Qed.

End BigSumFilter.

Section DashboardFacts.
Context {F : Type} `{Float32 F}.

Lemma filter_fmap {A B} (f : A → B) (P : B → Prop) `{!∀ b, Decision (P b)}
    (l : list A) :
  filter P (f <$> l) = f <$> filter (λ a, P (f a)) l.
Proof.
  induction l as [|a l IH]; [done|]. csimpl. rewrite !filter_cons.
  destruct (decide (P (f a))); csimpl; by rewrite IH.
Qed.

(** The cube rows of the selected keys. *)
Lemma filter_cube (P : Key → Prop) `{!∀ k, Decision (P k)} (rows : list (Row F)) :
  filter (λ c, P (cube_key c)) (agg <$> group_by rows)
  = (λ k, agg (k, group k rows)) <$> filter P (remove_dups (row_key <$> rows)).
Proof.
  unfold group_by. rewrite <- list_fmap_compose. by rewrite filter_fmap.
Qed.

Lemma selected_count (P : Key → Prop) `{!∀ k, Decision (P k)} (rows : list (Row F)) :
  sum_list (total_transactions <$> filter (λ c, P (cube_key c)) (agg <$> group_by rows))
  = length (filter (λ row, P (row_key row)) rows).
Proof.
  rewrite filter_cube, <- list_fmap_compose, sum_list_foldr.
  rewrite (length_foldr (filter _ rows)).
  rewrite <- (big_partition_filter Nat.add 0%nat Nat.add_assoc Nat.add_comm
                Nat.add_0_l (@row_key F) (λ _, 1%nat) P rows
                (remove_dups (row_key <$> rows))).
  - f_equal. apply list_fmap_ext; intros _ k _. cbn.
    unfold agg_len, group. apply length_foldr.
  - apply NoDup_remove_dups.
  - intros r Hr. apply elem_of_remove_dups, list_elem_of_fmap. by exists r.
Qed.

Lemma selected_amount `{!ExactSum F} (P : Key → Prop) `{!∀ k, Decision (P k)}
    (rows : list (Row F)) :
  fsum (total_amount <$> filter (λ c, P (cube_key c)) (agg <$> group_by rows))
  = fsum (drop_nulls (amount_clean <$> filter (λ row, P (row_key row)) rows)).
Proof.
  rewrite filter_cube, <- list_fmap_compose.
  rewrite (fsum_drop_nulls (amount_clean <$> _)), <- list_fmap_compose.
  unfold fsum.
  rewrite <- (big_partition_filter fadd fzero fadd_assoc fadd_comm fadd_zero_l
                (@row_key F) (default fzero ∘ amount_clean) P rows
                (remove_dups (row_key <$> rows))).
  - f_equal. apply list_fmap_ext; intros _ k _. cbn.
    rewrite list_fmap_compose. apply (fsum_drop_nulls (amount_clean <$> _)).
  - apply NoDup_remove_dups.
  - intros r Hr. apply elem_of_remove_dups, list_elem_of_fmap. by exists r.
Qed.

Lemma selected_rows (P : Key → Prop) `{!∀ k, Decision (P k)} frame (rows : list (Row F)) :
  Forall2 (λ r row, with_columns r = Ok row) frame rows →
  Forall2 (λ r row, with_columns r = Ok row)
    (filter (λ r, P (raw_key r)) frame) (filter (λ row, P (row_key row)) rows).
Proof.
  apply Forall2_filter_rel. intros r row Hr.
  by apply with_columns_Ok in Hr as (-> & _).
Qed.

Lemma and_nullable_true a b :
  and_nullable a b = Some true ↔ a = Some true ∧ b = Some true.
Proof. destruct a as [[]|], b as [[]|]; simpl; split; intros; try done; by destruct_and?. Qed.

Lemma is_in_true `{EqDecision A} (v : option A) (values : list A) :
  is_in v values = Some true ↔ ∃ x, v = Some x ∧ x ∈ values.
Proof.
  unfold is_in. destruct v as [x|]; simpl.
  - split.
    + intros [= Hx]. apply bool_decide_eq_true in Hx. by exists x.
    + intros (? & [= <-] & Hx). by rewrite bool_decide_eq_true_2.
  - split; [done|]. by intros (? & ? & _).
Qed.

Lemma mask_in_selection ys ss (r : RawRow) :
  and_nullable (is_in (key_Year (raw_key r)) ys)
               (is_in (key_Merchant_State (raw_key r)) ss) = Some true
  ↔ in_selection ys ss r = true.
Proof.
  rewrite and_nullable_true, !is_in_true. unfold in_selection. cbn.
  destruct (Year r) as [y|], (Merchant_State r) as [st|];
    rewrite ?andb_true_iff, ?bool_decide_eq_true.
  - split; [intros ((? & [= <-] & ?) & (? & [= <-] & ?)); done|].
    intros [? ?]. split; eexists; done.
  - split; [by intros (_ & (? & ? & _))|done].
  - split; [by intros ((? & ? & _) & _)|done].
  - split; [by intros ((? & ? & _) & _)|done].
Qed.

Lemma is_fraud_flagged (r : RawRow) :
  (λ b, bool_decide (b = true)) <$> key_is_fraud (raw_key r) = Some true
  ↔ flagged r = true.
Proof.
  cbn. unfold expr_is_fraud, flagged. destruct (Is_Fraud r) as [fl|]; cbn; [|done].
  by destruct (bool_decide (str_to_lowercase fl = "yes")).
Qed.

Lemma sum_list_filter_le {A} (f : A → nat) (P : A → Prop)
    `{!∀ a, Decision (P a)} (l : list A) :
  (sum_list (f <$> filter P l) ≤ sum_list (f <$> l))%nat.
Proof.
  induction l as [|a l IH]; [done|]. rewrite filter_cons.
  destruct (decide (P a)); csimpl; lia.
Qed.

Lemma length_filter_mono {A} (P Q : A → Prop) `{!∀ a, Decision (P a)}
    `{!∀ a, Decision (Q a)} (l : list A) :
  (∀ a, P a → Q a) → (length (filter P l) ≤ length (filter Q l))%nat.
Proof.
  intros HPQ. induction l as [|a l IH]; [done|]. rewrite !filter_cons.
  destruct (decide (P a)), (decide (Q a)); simpl; try lia. naive_solver.
Qed.

(** ** The indicators and the raw rows *)

(** X9.  "Total Transacciones" is the number of raw rows whose year is among the
    selected years and whose merchant state is among the selected states.
    Rows without a year or without a merchant state are in no selection:
    they are never counted, whatever is selected. *)
Theorem total_trans_counts_rows config w (frame : list RawRow)
    (cube : list (CubeRow F)) (selected_years : list Z)
    (selected_states : list string) :
  scan_csv (input_file config) w = Ok frame →
  build_optimized_pipeline config w = Ok cube →
  total_trans (df_filtered selected_years selected_states cube)
  = length (filter (λ r, in_selection selected_years selected_states r = true) frame) ∧
  (total_trans (df_filtered selected_years selected_states cube)
   ≤ length (filter (λ r, is_Some (Year r) ∧ is_Some (Merchant_State r)) frame))%nat.
Proof.
  intros Hs (frame' & rows & Hs' & Hrows%rows_related & ->)%pipeline_Ok.
  assert (frame' = frame) as -> by congruence.
  set (P := λ k : Key,
         and_nullable (is_in (key_Year k) selected_years)
                      (is_in (key_Merchant_State k) selected_states) = Some true).
  assert (E : total_trans (df_filtered selected_years selected_states (agg <$> group_by rows))
              = length (filter (λ r, in_selection selected_years selected_states r = true) frame)).
  { unfold total_trans, df_filtered, df_filter, mask.
    etrans; [exact (selected_count P rows)|].
    rewrite <- (Forall2_length _ _ _ (selected_rows P _ _ Hrows)).
    f_equal. apply list_filter_iff. intros r. apply mask_in_selection. }
  split; [done|]. rewrite E. apply length_filter_mono.
  intros r. unfold in_selection.
  destruct (Year r), (Merchant_State r); done.
Qed.

(** X10.  "Casos de Fraude" is the number of selected raw rows whose flag reads
    "yes" in any case; rows with a null flag are not among them.  It never
    exceeds "Total Transacciones", and it is 0 when that is 0. *)
Theorem fraud_cnt_counts_rows config w (frame : list RawRow)
    (cube : list (CubeRow F)) (selected_years : list Z)
    (selected_states : list string) :
  scan_csv (input_file config) w = Ok frame →
  build_optimized_pipeline config w = Ok cube →
  fraud_cnt (df_filtered selected_years selected_states cube)
  = length (filter (λ r, in_selection selected_years selected_states r && flagged r = true)
              frame) ∧
  (fraud_cnt (df_filtered selected_years selected_states cube)
   ≤ total_trans (df_filtered selected_years selected_states cube))%nat.
Proof.
  intros Hs (frame' & rows & Hs' & Hrows%rows_related & ->)%pipeline_Ok.
  assert (frame' = frame) as -> by congruence.
  split; [|apply sum_list_filter_le].
  set (P := λ k : Key,
         (λ b, bool_decide (b = true)) <$> key_is_fraud k = Some true ∧
         and_nullable (is_in (key_Year k) selected_years)
                      (is_in (key_Merchant_State k) selected_states) = Some true).
  unfold fraud_cnt, df_filtered, df_filter, mask, is_fraud_true.
  rewrite list_filter_filter.
  etrans; [exact (selected_count P rows)|].
  rewrite <- (Forall2_length _ _ _ (selected_rows P _ _ Hrows)).
  f_equal. apply list_filter_iff. intros r. unfold P.
  rewrite is_fraud_flagged, mask_in_selection, andb_true_iff. tauto.
Qed.

(** X11.  "Monto Total" is the sum of the cleaned amounts of the selected raw
    rows, in an addition without rounding. *)
Theorem total_amt_of_selection `{!ExactSum F} config w (frame : list RawRow)
    (cube : list (CubeRow F)) (selected_years : list Z)
    (selected_states : list string) :
  scan_csv (input_file config) w = Ok frame →
  build_optimized_pipeline config w = Ok cube →
  total_amt (df_filtered selected_years selected_states cube)
  = fsum (parsed_amounts
            (filter (λ r, in_selection selected_years selected_states r = true) frame)).
Proof.
  intros Hs (frame' & rows & Hs' & Hrows%rows_related & ->)%pipeline_Ok.
  assert (frame' = frame) as -> by congruence.
  set (P := λ k : Key,
         and_nullable (is_in (key_Year k) selected_years)
                      (is_in (key_Merchant_State k) selected_states) = Some true).
  unfold total_amt, df_filtered, df_filter, mask.
  etrans; [exact (selected_amount P rows)|].
  rewrite (amounts_of_rows _ _ (selected_rows P _ _ Hrows)).
  do 2 f_equal. apply list_filter_iff. intros r. apply mask_in_selection.
Qed.

(** ** The charts *)

Lemma sum_amount_by_total `{!ExactSum F} {K} `{EqDecision K}
    (cols : CubeRow F → K) (dff : list (CubeRow F)) :
  fsum (snd <$> sum_amount_by cols dff) = fsum (total_amount <$> dff).
Proof.
  unfold sum_amount_by, fsum. rewrite <- list_fmap_compose.
  rewrite <- (big_partition fadd fzero fadd_assoc fadd_comm fadd_zero_l
                cols total_amount dff (remove_dups (cols <$> dff))).
  - done.
  - apply NoDup_remove_dups.
  - intros c Hc. apply elem_of_remove_dups, list_elem_of_fmap. by exists c.
Qed.

Lemma sum_amount_by_keys {K} `{EqDecision K}
    (cols : CubeRow F → K) (dff : list (CubeRow F)) :
  fst <$> sum_amount_by cols dff = remove_dups (cols <$> dff).
Proof.
  unfold sum_amount_by. rewrite <- list_fmap_compose.
  rewrite <- (list_fmap_id (remove_dups (cols <$> dff))) at 2.
  by apply list_fmap_ext.
Qed.

(** X12.  The chart by transaction type and the monthly series, in whatever order
    the latter is displayed, have one entry per type or per month present in
    the filtered cube, and their amounts add up to "Monto Total" (addition
    without rounding). *)
Theorem chart_totals `{!ExactSum F} (dff : list (CubeRow F)) :
  fsum (snd <$> type_df dff) = total_amt dff ∧
  (∀ shown, shown ≡ₚ temp_df dff → fsum (snd <$> shown) = total_amt dff) ∧
  NoDup (fst <$> type_df dff) ∧
  NoDup (fst <$> temp_df dff) ∧
  (∀ c, c ∈ dff →
     key_Use_Chip (cube_key c) ∈ fst <$> type_df dff ∧
     (key_Year (cube_key c), key_Month (cube_key c)) ∈ fst <$> temp_df dff).
Proof.
  unfold type_df, temp_df, total_amt. repeat split.
  - apply sum_amount_by_total.
  - intros shown Hp. rewrite <- (sum_amount_by_total
      (λ c, (key_Year (cube_key c), key_Month (cube_key c))) dff).
    apply fsum_Permutation. by apply fmap_Permutation.
  - rewrite sum_amount_by_keys. apply NoDup_remove_dups.
  - rewrite sum_amount_by_keys. apply NoDup_remove_dups.
  - rewrite sum_amount_by_keys. apply elem_of_remove_dups, list_elem_of_fmap.
    by exists c.
  - rewrite sum_amount_by_keys. apply elem_of_remove_dups, list_elem_of_fmap.
    by exists c.
Qed.

End DashboardFacts.

(** ** The further properties at concrete inputs *)

Lemma cube_one_row_per_key_witness :
  ∃ cube,
    build_optimized_pipeline (F:=Q) default_config (sample_world mixed_frame true)
      = Ok cube ∧
    NoDup (cube_key <$> cube) ∧ (length cube ≤ length mixed_frame)%nat.
Proof.
  eexists. split; [vm_compute; reflexivity|].
  edestruct (cube_one_row_per_key (F:=Q) default_config
               (sample_world mixed_frame true) mixed_frame)
    as (Hnd & _ & Hlen & _); [reflexivity|vm_compute; reflexivity|].
  split; [exact Hnd|exact Hlen].
Defined.

Lemma cube_keys_fit_witness :
  ∃ cube c,
    build_optimized_pipeline (F:=Q) default_config (sample_world mixed_frame true)
      = Ok cube ∧ c ∈ cube ∧
    fits Int16 (key_Year (cube_key c)) ∧
    fits Int8 (key_Month (cube_key c)) ∧
    fits Int16 (key_MCC (cube_key c)).
Proof.
  do 2 eexists. split; [vm_compute; reflexivity|].
  split; [apply list_elem_of_here|].
  eapply (cube_keys_fit (F:=Q) default_config (sample_world mixed_frame true)).
  - vm_compute; reflexivity.
  - apply list_elem_of_here.
Defined.

Lemma error_count_conservation_witness :
  ∃ cube,
    build_optimized_pipeline (F:=Q) default_config (sample_world mixed_frame true)
      = Ok cube ∧
    sum_list (error_count <$> cube)
    = length (filter (λ r, is_Some (Errors r)) mixed_frame).
Proof.
  eexists. split; [vm_compute; reflexivity|].
  apply (error_count_conservation (F:=Q) default_config
           (sample_world mixed_frame true));
    vm_compute; reflexivity.
Defined.

Lemma unique_users_per_group_witness :
  ∃ cube,
    build_optimized_pipeline (F:=Q) default_config (sample_world sample_frame true)
      = Ok cube ∧
    (length (remove_dups (User <$> sample_frame)) ≤ sum_list (unique_users <$> cube))%nat.
Proof.
  eexists. split; [vm_compute; reflexivity|].
  apply (unique_users_per_group (F:=Q) default_config
           (sample_world sample_frame true) sample_frame);
    vm_compute; reflexivity.
Defined.

Lemma cube_reads_consumed_columns_witness :
  text_columns mixed_frame = true ∧ text_columns mixed_frame_respelled = true ∧
  build_optimized_pipeline (F:=Q) default_config
    (sample_world mixed_frame_respelled true)
  = build_optimized_pipeline (F:=Q) default_config (sample_world mixed_frame true).
Proof.
  split; [reflexivity|]. split; [reflexivity|].
  apply (cube_reads_consumed_columns (F:=Q) default_config
           (sample_world mixed_frame true)
           (sample_world mixed_frame_respelled true)
           mixed_frame mixed_frame_respelled);
    [reflexivity|reflexivity|reflexivity|reflexivity|].
  repeat constructor.
Defined.

Lemma pipeline_succeeds_iff_witness :
  text_columns mixed_frame = true ∧ forallb (row_ok (F:=Q)) mixed_frame = true ∧
  ∃ cube,
    build_optimized_pipeline (F:=Q) default_config (sample_world mixed_frame true)
    = Ok cube.
Proof.
  split; [reflexivity|]. split; [reflexivity|].
  exact (pipeline_succeeds_iff (F:=Q) default_config
           (sample_world mixed_frame true) mixed_frame eq_refl eq_refl).
Defined.

Lemma total_trans_counts_rows_witness :
  ∃ cube,
    build_optimized_pipeline (F:=Q) default_config (sample_world mixed_frame true)
      = Ok cube ∧
    total_trans (df_filtered [2020; 2021] ["CA"; "NY"] cube)
    = length (filter (λ r, in_selection [2020; 2021] ["CA"; "NY"] r = true) mixed_frame).
Proof.
  eexists. split; [vm_compute; reflexivity|].
  apply (total_trans_counts_rows (F:=Q) default_config
           (sample_world mixed_frame true) mixed_frame);
    vm_compute; reflexivity.
Defined.

Lemma fraud_cnt_counts_rows_witness :
  ∃ cube,
    build_optimized_pipeline (F:=Q) default_config (sample_world mixed_frame true)
      = Ok cube ∧
    fraud_cnt (df_filtered [2020; 2021] ["CA"; "NY"] cube)
    = length (filter (λ r, in_selection [2020; 2021] ["CA"; "NY"] r && flagged r = true)
                mixed_frame).
Proof.
  eexists. split; [vm_compute; reflexivity|].
  apply (fraud_cnt_counts_rows (F:=Q) default_config
           (sample_world mixed_frame true) mixed_frame);
    vm_compute; reflexivity.
Defined.

Lemma total_amt_of_selection_witness :
  ∃ cube,
    build_optimized_pipeline (F:=Q) default_config (sample_world mixed_frame true)
      = Ok cube ∧
    total_amt (df_filtered [2020] ["CA"] cube)
    = fsum (parsed_amounts
              (filter (λ r, in_selection [2020] ["CA"] r = true) mixed_frame)).
Proof.
  eexists. split; [vm_compute; reflexivity|].
  apply (total_amt_of_selection (F:=Q) default_config
           (sample_world mixed_frame true) mixed_frame);
    vm_compute; reflexivity.
Defined.

Lemma chart_totals_witness :
  ∃ cube,
    build_optimized_pipeline (F:=Q) default_config (sample_world mixed_frame true)
      = Ok cube ∧
    fsum (snd <$> type_df cube) = total_amt cube.
Proof.
  eexists. split; [vm_compute; reflexivity|].
  apply (chart_totals (F:=Q)).
Defined.

(** The sample frames behave as described: the respelled frame differs from
    [mixed_frame] in cells the cube does not read; the sum of
    [unique_users] (3) exceeds the number of distinct users (2) when a user
    appears in two groups; a year beyond 16 bits fails the run; the online
    row, which has no merchant state, is in no selection. *)
Example further_samples :
  mixed_frame_respelled ≠ mixed_frame ∧
  (∃ cube,
     build_optimized_pipeline (F:=Q) default_config (sample_world sample_frame true)
       = Ok cube ∧
     sum_list (unique_users <$> cube) = 3%nat ∧
     length (remove_dups (User <$> sample_frame)) = 2%nat) ∧
  build_optimized_pipeline (F:=Q) default_config (sample_world big_year_frame true)
    = Err InvalidOperationError ∧
  build_optimized_pipeline (F:=Q) default_config
    (sample_world [] true) = Ok [] ∧
  (∃ cube,
     build_optimized_pipeline (F:=Q) default_config (sample_world mixed_frame true)
       = Ok cube ∧
     total_trans cube = 4%nat ∧
     total_trans (df_filtered [2020; 2021] ["CA"; "NY"; "ONLINE"; ""] cube) = 3%nat ∧
     fraud_cnt (df_filtered [2020; 2021] ["CA"; "NY"] cube) = 2%nat).
Proof.
  split; [discriminate|].
  split; [eexists; split; [vm_compute; reflexivity|by vm_compute]|].
  split; [by vm_compute|]. split; [by vm_compute|].
  eexists; split; [vm_compute; reflexivity|by vm_compute].
Qed.
